(** * CivicGPT: the text normaliser and the two-signal sentiment scorer

    A shallow embedding of [utils/text_processor.py] and
    [services/sentiment_analyzer.py].

    - A Python [str] is a list of Unicode code points, [len] is the list
      length.
    - A Python [int] is a [Z].
    - A Python [float] is an IEEE-754 binary64 number: a [spec_float] with
      the operations of the Standard Library's [SpecFloat] at precision 53
      and maximal exponent 1024 ([SFmul], [SFadd], ... round to nearest,
      ties to even, as the hardware does).
    - A computation that may raise is a value of [Exc]; [try ... except
      Exception] is [try_except].
    - The literal messages of the program are kept as [string]s. *)

From Stdlib Require Import ZArith NArith List Bool Lia String Ascii DecimalString Zpower.
From Stdlib Require Import Floats.SpecFloat Floats.PrimFloat Floats.FloatOps.
From stdpp Require Import strings gmap.
Import ListNotations.

Set Warnings "-inexact-float".
Open Scope Z_scope.

(** ** Python values *)

Definition codepoint := N.
Definition str := list codepoint.

(** [len(s)] *)
Definition len {A} (s : list A) : Z := Z.of_nat (length s).

(** An ASCII literal of the source as a [str]. *)
Definition lit (s : string) : str :=
  map N_of_ascii (list_ascii_of_string s).

(** ** Exceptions *)

Inductive exn :=
  | ZeroDivisionError
  | OverflowError
  | Exception (msg : string).

Inductive Exc (A : Type) :=
  | Return (a : A)
  | Raise (e : exn).
Arguments Return {A} a.
Arguments Raise {A} e.

#[global] Instance Exc_ret : MRet Exc := @Return.
#[global] Instance Exc_bind : MBind Exc := fun A B f m =>
  match m with
  | Return a => f a
  | Raise e => Raise e
  end.

(** [try: body  except Exception as e: handler(e)] *)
Definition try_except {A} (body : Exc A) (handler : exn -> Exc A) : Exc A :=
  match body with
  | Return a => Return a
  | Raise e => handler e
  end.

(** ** Binary64 floats *)

Module PyFloat.

Definition float := spec_float.

Definition fmul : float -> float -> float := SFmul prec emax.
Definition fadd : float -> float -> float := SFadd prec emax.
Definition fsub : float -> float -> float := SFsub prec emax.
Definition fneg : float -> float := SFopp.
Definition fabs : float -> float := SFabs.
Definition flt : float -> float -> bool := SFltb.
Definition fle : float -> float -> bool := SFleb.
(** [x > y] *)
Definition fgt (x y : float) : bool := SFltb y x.

(** [x / y]: Python raises on a zero divisor. *)
Definition fdiv (x y : float) : Exc float :=
  match y with
  | S754_zero _ => Raise ZeroDivisionError
  | _ => Return (SFdiv prec emax x y)
  end.

(** The float literals of the source, as the binary64 numbers the decimal
    literals denote. *)
Definition c0_0 : float := Eval vm_compute in Prim2SF 0%float.
Definition c0_1 : float := Eval vm_compute in Prim2SF 0.1%float.
Definition c0_2 : float := Eval vm_compute in Prim2SF 0.2%float.
Definition c0_3 : float := Eval vm_compute in Prim2SF 0.3%float.
Definition c0_5 : float := Eval vm_compute in Prim2SF 0.5%float.
Definition c0_7 : float := Eval vm_compute in Prim2SF 0.7%float.
Definition c0_8 : float := Eval vm_compute in Prim2SF 0.8%float.
Definition c0_9 : float := Eval vm_compute in Prim2SF 0.9%float.
Definition c1_0 : float := Eval vm_compute in Prim2SF 1%float.

(** [float(n)] as [int * float] does it ([PyLong_AsDouble]): the nearest
    binary64 number, [OverflowError] when that is out of range. *)
Definition float_of_int (n : Z) : Exc float :=
  match binary_normalize prec emax n 0 false with
  | S754_infinity _ => Raise OverflowError
  | f => Return f
  end.

(** [float(len(s))]: a length is below [2^63], far inside the range of
    binary64, so the conversion cannot overflow. *)
Definition float_of_len (n : Z) : float :=
  binary_normalize prec emax n 0 false.

(** [n > f] for an [int] n and a [float] f: Python compares the exact
    values. *)
Definition int_gt_float (n : Z) (f : float) : bool :=
  match f with
  | S754_nan => false
  | S754_infinity s => s
  | S754_zero _ => 0 <? n
  | S754_finite s m e =>
      let v := if s then Z.neg m else Z.pos m in
      if 0 <=? e then v * 2 ^ e <? n else v <? n * 2 ^ (- e)
  end.

(** [min(a, b)] and [max(a, b)] of two arguments: the first one is kept
    unless the second one is strictly smaller (larger). *)
Definition py_min (a b : float) : float := if flt b a then b else a.
Definition py_max (a b : float) : float := if fgt b a then b else a.

End PyFloat.
Import PyFloat.

(** ** Shapes of rounded numbers *)

Module Rounding.

(** The number the rounding functions of [SpecFloat] build from the sign
    [s], the rounded mantissa [m] (at most [2^53]) and the exponent [F]:
    a mantissa of [2^53] is renormalised to [2^52], and an exponent above
    971 overflows to an infinity. *)
Definition pack (s : bool) (m F : Z) : float :=
  match m with
  | Z0 => S754_zero s
  | Zpos p =>
      if m <? 2 ^ 53 then
        if F <=? emax - prec then S754_finite s p F else S754_infinity s
      else
        if F + 1 <=? emax - prec
        then S754_finite s 4503599627370496%positive (F + 1)
        else S754_infinity s
  | Zneg _ => S754_nan
  end.

(** A number with the sign bit [s]. *)
Definition signed (s : bool) (x : float) : Prop :=
  match x with
  | S754_nan => False
  | S754_zero s' | S754_infinity s' | S754_finite s' _ _ => s' = s
  end.

(** Neither a negative number nor the negative infinity. *)
Definition not_negative (x : float) : Prop :=
  match x with
  | S754_finite true _ _ | S754_infinity true => False
  | _ => True
  end.

Definition not_nan (x : float) : Prop :=
  match x with S754_nan => False | _ => True end.

(** A zero or a finite number. *)
Definition finite_or_zero (x : float) : Prop :=
  match x with
  | S754_zero _ | S754_finite _ _ _ => True
  | _ => False
  end.

End Rounding.
Import Rounding.

(** ** The sentiment scorer ([services/sentiment_analyzer.py]) *)

Module Sentiment.

(** What [SentimentIntensityAnalyzer.polarity_scores] returns. *)
Record vader_scores := {
  neg : float;
  neu : float;
  pos : float;
  compound : float
}.

Inductive classification := positive | negative | neutral.

Record textblob_details := {
  polarity : float;
  subjectivity : float
}.

Record details_record := {
  textblob : textblob_details;
  vader : vader_scores;
  combined : float
}.

Record SentimentRecord := {
  sentiment : classification;
  confidence : float;
  score : float;
  explanation : string;
  details : details_record
}.

(** [_combine_sentiment_scores] *)
Definition _combine_sentiment_scores (textblob_score : float)
    (vader_scores : vader_scores) : float :=
  let vader_score := compound vader_scores in
  let combined := fadd (fmul c0_3 textblob_score) (fmul c0_7 vader_score) in
  py_max (fneg c1_0) (py_min c1_0 combined).

(** [_classify_sentiment] *)
Definition _classify_sentiment (score : float) : Exc (classification * float) :=
  let positive_threshold := c0_1 in
  let negative_threshold := fneg c0_1 in
  if fgt score positive_threshold then
    q ← fdiv (fsub score positive_threshold) (fsub c1_0 positive_threshold);
    mret (positive, py_min c1_0 q)
  else if flt score negative_threshold then
    q ← fdiv (fsub negative_threshold score) (fadd negative_threshold c1_0);
    mret (negative, py_min c1_0 q)
  else
    mret (neutral, fsub c1_0 (fabs score)).

(** [explanations[classification][0]] *)
Definition base_explanation (c : classification) : string :=
  match c with
  | positive => "The post has a positive tone that could engage your audience well."
  | negative => "The post may come across as negative or critical."
  | neutral => "The post has a balanced, neutral tone."
  end.

(** [_generate_sentiment_explanation] *)
Definition _generate_sentiment_explanation (c : classification)
    (score subjectivity : float) : string :=
  let base := base_explanation c in
  let base :=
    if fgt subjectivity c0_7 then
      (base ++ " The content is quite subjective and personal.")%string
    else if flt subjectivity c0_3 then
      (base ++ " The content is objective and factual.")%string
    else base in
  if fgt (fabs score) c0_7 then
    (base ++ " The sentiment is strongly expressed.")%string
  else if flt (fabs score) c0_2 then
    (base ++ " The sentiment is subtle and understated.")%string
  else base.

(** [_get_fallback_sentiment] *)
Definition _get_fallback_sentiment : SentimentRecord :=
  {| sentiment := neutral;
     confidence := c0_5;
     score := c0_0;
     explanation := "Sentiment analysis was unable to process this text.";
     details :=
       {| textblob := {| polarity := c0_0; subjectivity := c0_5 |};
          vader := {| compound := c0_0; pos := c0_0; neg := c0_0; neu := c1_0 |};
          combined := c0_0 |} |}.

Section Analyzer.

(** The two lexicon models are libraries outside the repository: a call
    either returns its scores or raises. *)
Variable TextBlob : str -> Exc textblob_details.
Variable polarity_scores : str -> Exc vader_scores.

(** The body of the [try] block of [analyze_sentiment]. *)
Definition analyze_sentiment_body (text : str) : Exc SentimentRecord :=
  blob ← TextBlob text;
  let textblob_sentiment := polarity blob in
  let textblob_subjectivity := subjectivity blob in
  vader_scores ← polarity_scores text;
  let combined_sentiment :=
    _combine_sentiment_scores textblob_sentiment vader_scores in
  cc ← _classify_sentiment combined_sentiment;
  let '(classification, confidence) := cc in
  mret {| sentiment := classification;
          confidence := confidence;
          score := combined_sentiment;
          explanation :=
            _generate_sentiment_explanation classification combined_sentiment
              textblob_subjectivity;
          details :=
            {| textblob := {| polarity := textblob_sentiment;
                              subjectivity := textblob_subjectivity |};
               vader := vader_scores;
               combined := combined_sentiment |} |}.

(** [analyze_sentiment]: the error is logged and the fallback returned. *)
Definition analyze_sentiment (text : str) : Exc SentimentRecord :=
  try_except (analyze_sentiment_body text)
    (fun _ => Return _get_fallback_sentiment).

(** [analyze_sentiment_batch] *)
Fixpoint analyze_sentiment_batch (texts : list str) : Exc (list SentimentRecord) :=
  match texts with
  | [] => mret []
  | text :: rest =>
      r ← analyze_sentiment text;
      rs ← analyze_sentiment_batch rest;
      mret (r :: rs)
  end.

End Analyzer.

End Sentiment.

(** ** The text processor ([utils/text_processor.py]) *)

Module Text.

(** *** Character classes *)

(** The part of the Unicode character database the program reaches through
    [unicodedata] and [re], which are libraries outside the repository:
    NFKC normalisation of a text, and [str.isalnum] on the code points
    above ASCII. *)
Class UnicodeData := {
  normalize_NFKC : str -> str;
  isalnum_nonascii : codepoint -> bool
}.

(** [\s], [str.isspace]: the white space of CPython 3 ([Py_UNICODE_ISSPACE]). *)
Definition isspace (c : codepoint) : bool :=
  ((9 <=? c) && (c <=? 13) || (28 <=? c) && (c <=? 32) || (c =? 133)
   || (c =? 160) || (c =? 5760) || (8192 <=? c) && (c <=? 8202)
   || (c =? 8232) || (c =? 8233) || (c =? 8239) || (c =? 8287)
   || (c =? 12288))%N.

Definition ascii_alnum (c : codepoint) : bool :=
  ((48 <=? c) && (c <=? 57) || (65 <=? c) && (c <=? 90)
   || (97 <=? c) && (c <=? 122))%N.

(** [\w]: alphanumeric or the underscore. *)
Definition is_word `{UnicodeData} (c : codepoint) : bool :=
  if (c <? 128)%N then ascii_alnum c || (c =? 95)%N else isalnum_nonascii c.

(** [[A-Z]] *)
Definition is_upper_AZ (c : codepoint) : bool := ((65 <=? c) && (c <=? 90))%N.

(** [[!?]] *)
Definition is_bang_or_question (c : codepoint) : bool :=
  ((c =? 33) || (c =? 63))%N.

(** The punctuation of the negated character class of [clean_text], in the
    order of the pattern: @ # . , ! ? ; : ( ) - _ then the apostrophe and
    the double quote. *)
Definition allowed_punct : list codepoint :=
  [64; 35; 46; 44; 33; 63; 59; 58; 40; 41; 45; 95; 39; 34]%N.

Definition allowed `{UnicodeData} (c : codepoint) : bool :=
  is_word c || isspace c || existsb (N.eqb c) allowed_punct.

(** One repetition of the group of [url_pattern]: [[a-zA-Z]], [[0-9]],
    [[$-_@.&+]] (the range from $ to _, and @ . & +), [[!*\\(\\),]].  The
    last alternative, a percent sign and two hexadecimal digits, only
    matches characters the range from $ to _ and the letters have matched
    before it. *)
Definition url_char (c : codepoint) : bool :=
  ((65 <=? c) && (c <=? 90) || (97 <=? c) && (c <=? 122)
   || (48 <=? c) && (c <=? 57)
   || (36 <=? c) && (c <=? 95) || (c =? 64) || (c =? 46) || (c =? 38) || (c =? 43)
   || (c =? 33) || (c =? 42) || (c =? 92) || (c =? 40) || (c =? 41) || (c =? 44))%N.

(** *** String operations of Python *)

Fixpoint take_while (p : codepoint -> bool) (s : str) : str :=
  match s with
  | [] => []
  | c :: rest => if p c then c :: take_while p rest else []
  end.

Fixpoint drop_while (p : codepoint -> bool) (s : str) : str :=
  match s with
  | [] => []
  | c :: rest => if p c then drop_while p rest else s
  end.

(** [s.strip()] *)
Definition strip (s : str) : str :=
  rev (drop_while isspace (rev (drop_while isspace s))).

(** [s.split()]: the maximal runs of characters that are not white space.
    [cur] is the word being read. *)
Fixpoint split_from (cur : str) (s : str) : list str :=
  match s with
  | [] => match cur with [] => [] | _ => [cur] end
  | c :: rest =>
      if isspace c then
        match cur with
        | [] => split_from [] rest
        | _ => cur :: split_from [] rest
        end
      else split_from (cur ++ [c]) rest
  end.

Definition split (s : str) : list str := split_from [] s.

(** [s[:k]], for every integer [k]: a negative [k] counts from the end. *)
Definition slice_to {A} (s : list A) (k : Z) : list A :=
  let n := len s in
  let stop := if k <? 0 then Z.max (k + n) 0 else Z.min k n in
  take (Z.to_nat stop) s.

(** [s.rfind(c)] for a one-character [c]: the highest index of [c], or -1.
    [i] is the index of the head of [s], [found] the answer so far. *)
Fixpoint rfind_from (c : codepoint) (s : str) (i found : Z) : Z :=
  match s with
  | [] => found
  | x :: rest => rfind_from c rest (i + 1) (if (x =? c)%N then i else found)
  end.

Definition rfind (c : codepoint) (s : str) : Z := rfind_from c s 0 (-1).

(** [str(n)] inside an f-string *)
Definition str_of_int (n : Z) : string := NilZero.string_of_int (Z.to_int n).

(** *** Regular expressions *)

(** [re.sub(r'\s+', ' ', s)]: every maximal run of white space becomes one
    space.  [inrun] tells that the previous character was white space. *)
Fixpoint sub_whitespace_from (inrun : bool) (s : str) : str :=
  match s with
  | [] => []
  | c :: rest =>
      if isspace c then
        if inrun then sub_whitespace_from true rest
        else 32%N :: sub_whitespace_from true rest
      else c :: sub_whitespace_from false rest
  end.

Definition sub_whitespace (s : str) : str := sub_whitespace_from false s.

(** [re.findall(pattern, s)] for a pattern that matches no empty string.
    [m s] tries the pattern at the head of [s] and gives what [findall]
    records for the match together with the text after it; the scan goes on
    after a match, and one character further where there is none. *)
Fixpoint findall_fuel (m : str -> option (str * str)) (fuel : nat) (s : str)
    : list str :=
  match fuel with
  | O => []
  | S fuel' =>
      match s with
      | [] => []
      | _ :: rest =>
          match m s with
          | Some (found, after) => found :: findall_fuel m fuel' after
          | None => findall_fuel m fuel' rest
          end
      end
  end.

Definition findall (m : str -> option (str * str)) (s : str) : list str :=
  findall_fuel m (length s) s.

(** [#\w+] (with [marker] the code of #): the whole match is recorded. *)
Definition match_marker_word `{UnicodeData} (marker : codepoint) (s : str)
    : option (str * str) :=
  match s with
  | c :: rest =>
      if (c =? marker)%N then
        match take_while is_word rest with
        | [] => None
        | w => Some (marker :: w, drop (length w) rest)
        end
      else None
  | [] => None
  end.

(** [#(\w+)], [@(\w+)]: the group is recorded. *)
Definition match_marker_group `{UnicodeData} (marker : codepoint) (s : str)
    : option (str * str) :=
  match match_marker_word marker s with
  | Some (_ :: w, after) => Some (w, after)
  | _ => None
  end.

(** A literal prefix of a pattern. *)
Fixpoint match_literal (p s : str) : option str :=
  match p, s with
  | [], _ => Some s
  | a :: p', c :: s' => if (a =? c)%N then match_literal p' s' else None
  | _ :: _, [] => None
  end.

(** [://(?:...)+], the end of [url_pattern]. *)
Definition match_url_tail (s : str) : option (str * str) :=
  match match_literal (lit "://") s with
  | Some rest =>
      match take_while url_char rest with
      | [] => None
      | run => Some ((lit "://" ++ run)%list, drop (length run) rest)
      end
  | None => None
  end.

(** [url_pattern]: [http], then [s] if the rest matches with it and
    without it otherwise, then the tail. *)
Definition match_url (s : str) : option (str * str) :=
  match match_literal (lit "http") s with
  | Some rest =>
      let without_s :=
        match match_url_tail rest with
        | Some (t, after) => Some ((lit "http" ++ t)%list, after)
        | None => None
        end in
      match rest with
      | 115%N :: rest' =>
          match match_url_tail rest' with
          | Some (t, after) => Some ((lit "https" ++ t)%list, after)
          | None => without_s
          end
      | _ => without_s
      end
  | None => None
  end.

(** [re.search(r'(.)\1{3,}', s)] finds something: four equal characters in
    a row, the dot matching everything but the newline. *)
Fixpoint search_four_repeated (s : str) : bool :=
  match s with
  | a :: (b :: c :: d :: _) as rest =>
      (negb (a =? 10) && (a =? b) && (a =? c) && (a =? d))%N
      || search_four_repeated rest
  | _ => false
  end.

(** [list(set(l))] *)
Definition list_of_set (l : list str) : list str :=
  elements (list_to_set l : gset str).

(** *** The class [TextProcessor] *)

Record TextProcessor := { max_length : Z }.

(** [settings.max_post_length], unless the environment overrides it. *)
Definition default_max_post_length : Z := 280.

Section Processor.

Context `{UnicodeData}.
Variable self : TextProcessor.

(** [clean_text] *)
Definition clean_text (text : str) : str :=
  match text with
  | [] => []
  | _ =>
      let text := normalize_NFKC text in
      let text := sub_whitespace text in
      let text := strip text in
      List.filter allowed text
  end.

(** The loop of [_has_excessive_repetition] over [words]. *)
Fixpoint three_equal_words (words : list str) : bool :=
  match words with
  | a :: (b :: c :: _) as rest =>
      (bool_decide (a = b) && bool_decide (b = c)) || three_equal_words rest
  | _ => false
  end.

(** [_has_excessive_repetition] *)
Definition _has_excessive_repetition (text : str) : bool :=
  if search_four_repeated text then true
  else three_equal_words (split text).

(** [_is_spam_like] *)
Definition _is_spam_like (text : str) : bool :=
  if int_gt_float (len (List.filter is_upper_AZ text))
       (fmul (float_of_len (len text)) c0_7) then true
  else if int_gt_float (len (List.filter is_bang_or_question text))
       (fmul (float_of_len (len text)) c0_1) then true
  else if 10 <? len (findall (match_marker_word 35%N) text) then true
  else false.

Definition err_empty : string := "Post cannot be empty".
Definition err_too_long : string :=
  ("Post exceeds maximum length of " ++ str_of_int (max_length self)
   ++ " characters")%string.
Definition err_too_short : string := "Post must be at least 3 characters long".
Definition err_repetition : string := "Post contains excessive repetition".
Definition err_spam : string := "Post appears to be spam-like".

(** [validate_post].  [errors.append] is written as a list that grows at
    its end. *)
Definition validate_post (text : str) : bool * list string :=
  let errors := [] in
  if bool_decide (text = []) || bool_decide (strip text = []) then
    let errors := errors ++ [err_empty] in
    (false, errors)
  else
    let errors :=
      if max_length self <? len text then errors ++ [err_too_long] else errors in
    let errors :=
      if len (strip text) <? 3 then errors ++ [err_too_short] else errors in
    let errors :=
      if _has_excessive_repetition text then errors ++ [err_repetition]
      else errors in
    let errors :=
      if _is_spam_like text then errors ++ [err_spam] else errors in
    (bool_decide (len errors = 0), errors).

(** [extract_hashtags], [extract_mentions], [extract_urls] *)
Definition extract_hashtags (text : str) : list str :=
  list_of_set (findall (match_marker_group 35%N) text).

Definition extract_mentions (text : str) : list str :=
  list_of_set (findall (match_marker_group 64%N) text).

Definition extract_urls (text : str) : list str :=
  list_of_set (findall match_url text).

(** The dictionary [get_text_stats] returns. *)
Record PostStatistics := {
  original_length : Z;
  cleaned_length : Z;
  word_count : Z;
  character_count : Z;
  hashtag_count : Z;
  mention_count : Z;
  url_count : Z;
  hashtags : list str;
  mentions : list str;
  urls : list str
}.

(** [get_text_stats] *)
Definition get_text_stats (text : str) : PostStatistics :=
  let cleaned_text := clean_text text in
  {| original_length := len text;
     cleaned_length := len cleaned_text;
     word_count := len (split cleaned_text);
     character_count := len cleaned_text;
     hashtag_count := len (extract_hashtags text);
     mention_count := len (extract_mentions text);
     url_count := len (extract_urls text);
     hashtags := extract_hashtags text;
     mentions := extract_mentions text;
     urls := extract_urls text |}.

(** [truncate_text]; [None] is the default of the optional argument. *)
Definition truncate_text (text : str) (max_length_arg : option Z) : Exc str :=
  let max_length :=
    match max_length_arg with
    | None => max_length self
    | Some n => n
    end in
  if len text <=? max_length then Return text
  else
    let truncated := (slice_to text (max_length - 3) ++ lit "...")%list in
    let last_space := rfind 32%N truncated in
    f ← float_of_int max_length;
    if int_gt_float last_space (fmul f c0_8) then
      Return (slice_to truncated last_space ++ lit "...")%list
    else Return truncated.

(** [clean_and_validate_post] and [get_post_statistics], the functions of
    the module, on the shared processor. *)
Definition clean_and_validate_post (text : str) : str * bool * list string :=
  let cleaned_text := clean_text text in
  let '(is_valid, errors) := validate_post cleaned_text in
  (cleaned_text, is_valid, errors).

Definition get_post_statistics (text : str) : PostStatistics :=
  get_text_stats text.

End Processor.

(** The global instance [text_processor] under the default settings. *)
Definition text_processor : TextProcessor :=
  {| max_length := default_max_post_length |}.

(** *** A fragment of the Unicode data

    Exact on the texts made of ASCII characters, U+2026 (horizontal
    ellipsis, compatibility decomposition: three full stops) and U+FB01
    (the ligature of f and i, a letter, compatibility decomposition: f i);
    these texts contain no combining character, so that NFKC maps them
    character by character. *)
Definition nfkc_char (c : codepoint) : str :=
  if (c =? 8230)%N then [46; 46; 46]%N
  else if (c =? 64257)%N then [102; 105]%N
  else [c].

#[global] Instance ucd_fragment : UnicodeData :=
  {| normalize_NFKC := flat_map nfkc_char;
     isalnum_nonascii := fun c => (c =? 64257)%N |}.

End Text.

(** ** The properties as the specification words them *)

Module Spec.
Import Text.

(** [clamp(x, lo, hi)] *)
Definition clamp (x lo hi : float) : float :=
  if flt x lo then lo else if fgt x hi then hi else x.

(** [x] lies in the interval from [lo] to [hi]. *)
Definition between (lo hi x : float) : bool := fle lo x && fle x hi.

(** A binary64 number, possibly infinite or not a number, in the
    representation the format gives it. *)
Definition is_binary64 (x : float) : bool := valid_binary prec emax x.

(** A binary64 number that is neither infinite nor not a number. *)
Definition is_finite (x : float) : bool :=
  match x with
  | S754_zero _ => true
  | S754_finite _ _ _ => is_binary64 x
  | _ => false
  end.

(** The class of a combined score: positive above 0.1, negative below
    -0.1, neutral otherwise. *)
Definition classify (combined : float) : Sentiment.classification :=
  if fgt combined c0_1 then Sentiment.positive
  else if flt combined (fneg c0_1) then Sentiment.negative
  else Sentiment.neutral.

(** The confidence of a class: [min(1, (combined - 0.1) / 0.9)],
    [min(1, (-0.1 - combined) / 0.9)], [1 - abs(combined)]. *)
Definition confidence (c : Sentiment.classification) (combined : float)
    : float :=
  match c with
  | Sentiment.positive =>
      py_min c1_0 (SFdiv prec emax (fsub combined c0_1) c0_9)
  | Sentiment.negative =>
      py_min c1_0 (SFdiv prec emax (fsub (fneg c0_1) combined) c0_9)
  | Sentiment.neutral => fsub c1_0 (fabs combined)
  end.

(** Every detail signal of a record is zero. *)
Definition zero_valued_details (d : Sentiment.details_record) : Prop :=
  Sentiment.polarity (Sentiment.textblob d) = c0_0
  /\ Sentiment.subjectivity (Sentiment.textblob d) = c0_0
  /\ Sentiment.compound (Sentiment.vader d) = c0_0
  /\ Sentiment.pos (Sentiment.vader d) = c0_0
  /\ Sentiment.neg (Sentiment.vader d) = c0_0
  /\ Sentiment.neu (Sentiment.vader d) = c0_0
  /\ Sentiment.combined d = c0_0.

(** The spam-like rule: uppercase letters exceed 70% of the length, or
    exclamation and question marks exceed 10% of it, or there are more
    than 10 hashtags. *)
Definition spam_like `{UnicodeData} (text : str) : bool :=
  (7 * len text <? 10 * len (List.filter is_upper_AZ text))
  || (len text <? 10 * len (List.filter is_bang_or_question text))
  || (10 <? len (findall (match_marker_word 35%N) text)).

(** The errors of the rules that apply to a text that is not empty, in the
    order of the checks. *)
Definition rule_errors `{UnicodeData} (self : TextProcessor) (text : str)
    : list string :=
  ((if max_length self <? len text then [err_too_long self] else [])
   ++ (if len (strip text) <? 3 then [err_too_short] else [])
   ++ (if _has_excessive_repetition text then [err_repetition] else [])
   ++ (if _is_spam_like text then [err_spam] else []))%list.

(** [truncate]: the text when it fits; otherwise its first
    [max_length - 3] characters and three full stops, the cut ending at
    its last space when that space is at or after 80% of [max_length]. *)
Definition truncate (text : str) (max_length : Z) : str :=
  if len text <=? max_length then text
  else
    let cut := take (Z.to_nat (max_length - 3)) text in
    let last_space := rfind 32%N cut in
    if (0 <=? last_space) && (4 * max_length <=? 5 * last_space) then
      (take (Z.to_nat last_space) cut ++ lit "...")%list
    else (cut ++ lit "...")%list.

End Spec.

(** ** Sample inputs *)

Module Samples.
Import Sentiment.

(** A post of 90 characters, 63 of them capital letters. *)
Definition capitals_post : str := concat (repeat (lit "ABCDEFGabc") 9).

(** A post with a space at index 20 and none after it. *)
Definition long_word_post : str := lit "aaaaaaaaaaaaaaaaaaaa bbbbbbbbbb".

(** A lexicon model that cannot process its input. *)
Definition failing_model {A} (text : str) : Exc A :=
  Raise (Exception "the model could not process the text").

(** Lexicon models with the same scores for every text. *)
Definition steady_textblob (text : str) : Exc textblob_details :=
  Return {| polarity := c0_5; subjectivity := c0_5 |}.

Definition steady_vader (text : str) : Exc vader_scores :=
  Return {| neg := c0_0; neu := c0_2; pos := c0_8; compound := c0_8 |}.

End Samples.

(** ** Notions for the shape of results *)

Module Notions.
Import Sentiment Text.

(** A text without leading, trailing or doubled white space, whose only
    white space is the space; [after_space] tells that the text so far
    is empty or ends with a space. *)
Fixpoint single_spaced_from (after_space : bool) (s : str) : bool :=
  match s with
  | [] => negb after_space
  | c :: rest =>
      if isspace c then
        (c =? 32)%N && negb after_space && single_spaced_from true rest
      else single_spaced_from false rest
  end.

Definition single_spaced (s : str) : bool := single_spaced_from true s.

(** A word of a text: not empty, and free of white space. *)
Definition is_word_of_text (w : str) : Prop :=
  w <> [] /\ Forall (fun c => isspace c = false) w.

(** The limit [truncate_text] works with: the argument, or the limit of
    the processor when the argument is [None]. *)
Definition limit_of (self : TextProcessor) (max_length_arg : option Z) : Z :=
  match max_length_arg with
  | None => max_length self
  | Some n => n
  end.

(** The class of the negated score. *)
Definition opposite (c : classification) : classification :=
  match c with
  | positive => negative
  | negative => positive
  | neutral => neutral
  end.

(** What [_generate_sentiment_explanation] can add about subjectivity. *)
Definition subjectivity_notes : list string :=
  [""; " The content is quite subjective and personal.";
   " The content is objective and factual."]%string.

(** Lexicon models that find nothing in any text. *)
Definition calm_textblob (text : str) : Exc textblob_details :=
  Return {| polarity := c0_0; subjectivity := c0_5 |}.

Definition calm_vader (text : str) : Exc vader_scores :=
  Return {| neg := c0_0; neu := c1_0; pos := c0_0; compound := c0_0 |}.

(** A post with eleven different hashtags. *)
Definition hashtag_post : str := lit "#a #b #c #d #e #f #g #h #i #j #k".

End Notions.

(** * Properties of binary64 rounding *)

Module Binary64.

(** ** Digits and shifts *)

(** The number of binary digits is one more than the logarithm. *)
Lemma digits2_pos_log2 (p : positive) :
  Z.pos (digits2_pos p) = Z.log2 (Z.pos p) + 1.
Proof.
  induction p as [p IH|p IH|]; simpl; try reflexivity.
  - rewrite Pos2Z.inj_succ, IH. destruct p; simpl; lia.
  - rewrite Pos2Z.inj_succ, IH. destruct p; simpl; lia.
Qed.

Lemma digits2_pos_bounds (p : positive) :
  2 ^ (Z.pos (digits2_pos p) - 1) <= Z.pos p < 2 ^ Z.pos (digits2_pos p).
Proof.
  rewrite digits2_pos_log2.
  replace (Z.log2 (Z.pos p) + 1 - 1) with (Z.log2 (Z.pos p)) by lia.
  apply Z.log2_spec. lia.
Qed.

Lemma digits2_pos_unique (p : positive) (k : Z) :
  2 ^ (k - 1) <= Z.pos p < 2 ^ k -> Z.pos (digits2_pos p) = k.
Proof.
  intros Hk. rewrite digits2_pos_log2.
  assert (0 <= k - 1).
  { destruct (Z.le_gt_cases 0 (k - 1)) as [Hle|Hgt]; [exact Hle|].
    exfalso. destruct (Z.le_gt_cases 0 k).
    - assert (k = 0) by lia. subst k. simpl in Hk. lia.
    - rewrite (Z.pow_neg_r 2 k) in Hk by lia. lia. }
  rewrite (Z.log2_unique (Z.pos p) (k - 1)); [lia | lia |].
  replace (Z.succ (k - 1)) with k by lia. exact Hk.
Qed.

(** One shift to the right halves the mantissa. *)
Lemma shr_1_m (r : shr_record) :
  0 <= shr_m r -> shr_m (shr_1 r) = shr_m r / 2.
Proof.
  destruct r as [m rb sb]. simpl. intros Hm.
  destruct m as [|[p|p|]|p]; simpl; try reflexivity; try lia.
  - rewrite Pos2Z.inj_xI. apply Z.div_unique with (r := 1); lia.
  - rewrite Pos2Z.inj_xO. apply Z.div_unique with (r := 0); lia.
Qed.

(** [p] shifts divide it by [2^p]. *)
Lemma iter_pos_shr_m (p : positive) (r : shr_record) :
  0 <= shr_m r -> shr_m (SpecFloat.iter_pos shr_1 p r) = shr_m r / 2 ^ Z.pos p.
Proof.
  revert r. induction p as [p IH|p IH|]; intros r Hr; simpl.
  - assert (H1 : 0 <= shr_m (shr_1 r)).
    { rewrite shr_1_m by exact Hr. apply Z.div_pos; lia. }
    assert (H2 : 0 <= shr_m (SpecFloat.iter_pos shr_1 p (shr_1 r))).
    { rewrite IH by exact H1. apply Z.div_pos; [exact H1 | apply Z.pow_pos_nonneg; lia]. }
    rewrite IH by exact H2. rewrite IH by exact H1. rewrite shr_1_m by exact Hr.
    rewrite !Z.div_div by (try apply Z.pow_pos_nonneg; lia).
    f_equal. rewrite Pos2Z.inj_xI, <- !Z.pow_add_r by lia.
    rewrite <- (Z.pow_1_r 2) at 1. rewrite <- Z.pow_add_r by lia. f_equal. lia.
  - assert (H2 : 0 <= shr_m (SpecFloat.iter_pos shr_1 p r)).
    { rewrite IH by exact Hr. apply Z.div_pos; [exact Hr | apply Z.pow_pos_nonneg; lia]. }
    rewrite IH by exact H2. rewrite IH by exact Hr.
    rewrite !Z.div_div by (try apply Z.pow_pos_nonneg; lia).
    f_equal. rewrite Pos2Z.inj_xO, <- !Z.pow_add_r by lia. f_equal. lia.
  - rewrite shr_1_m by exact Hr. reflexivity.
Qed.

(** Rounding keeps the truncated mantissa or adds one. *)
Lemma round_nearest_even_bounds (m : Z) (l : location) :
  m <= round_nearest_even m l <= m + 1.
Proof.
  unfold round_nearest_even.
  destruct l as [|[| |]]; try destruct (Z.even m); lia.
Qed.

(** ** Rounding an exact mantissa *)

Lemma fexp_eq (x : Z) : fexp prec emax x = Z.max (x - 53) (-1074).
Proof. reflexivity. Qed.

(** The first shift of [binary_round_aux] brings the exponent to [fexp]
    and divides the mantissa accordingly. *)
Lemma first_shift (M : positive) (e : Z) :
  let F := fexp prec emax (Z.pos (digits2_pos M) + e) in
  e <= F ->
  exists mrs, shr_fexp prec emax (Z.pos M) e loc_Exact = (mrs, F)
    /\ shr_m mrs = Z.pos M / 2 ^ (F - e)
    /\ (F = e -> loc_of_shr_record mrs = loc_Exact).
Proof.
  intros F HeF. unfold shr_fexp, shr. simpl Zdigits2. fold F.
  destruct (F - e) as [|p|p] eqn:Hn.
  - eexists. split; [f_equal; lia|]. simpl. split; [|reflexivity].
    rewrite Z.div_1_r. reflexivity.
  - eexists. split; [f_equal; lia|]. split.
    + rewrite iter_pos_shr_m by (simpl; lia). reflexivity.
    + lia.
  - lia.
Qed.

(** The second shift only renormalises a mantissa that rounding carried
    to [2^53]. *)
Lemma second_shift (s : bool) (m2 F : Z) :
  0 <= m2 <= 2 ^ 53 -> -1074 <= F ->
  (let '(mrs, e) := shr_fexp prec emax m2 F loc_Exact in
   match shr_m mrs with
   | Z0 => S754_zero s
   | Zpos m => if e <=? emax - prec then S754_finite s m e else S754_infinity s
   | Zneg _ => S754_nan
   end) = pack s m2 F.
Proof.
  intros Hm HF. unfold shr_fexp, shr, pack.
  destruct m2 as [|p|p]; [| |lia].
  - simpl Zdigits2. rewrite fexp_eq.
    destruct (Z.max (0 + F - 53) (-1074) - F) eqn:Hn; try reflexivity. lia.
  - simpl Zdigits2.
    pose proof (digits2_pos_bounds p) as Hd.
    destruct (Z.ltb_spec (Z.pos p) (2 ^ 53)) as [Hlt|Hge].
    + assert (Z.pos (digits2_pos p) <= 53).
      { assert (2 ^ (Z.pos (digits2_pos p) - 1) < 2 ^ 53) by lia.
        apply Z.pow_lt_mono_r_iff in H; lia. }
      rewrite fexp_eq.
      destruct (Z.max (Z.pos (digits2_pos p) + F - 53) (-1074) - F) eqn:Hn;
        try reflexivity. lia.
    + assert (Hp : p = 9007199254740992%positive) by lia. subst p.
      replace (fexp prec emax (Z.pos (digits2_pos 9007199254740992) + F) - F) with 1.
      * simpl. reflexivity.
      * rewrite fexp_eq. change (Z.pos (digits2_pos 9007199254740992)) with 54. lia.
Qed.

(** [binary_round_aux] on an exact mantissa whose exponent is not above
    the one of the format: the result is packed from the truncated
    mantissa or its successor. *)
Lemma binary_round_aux_exact (s : bool) (M : positive) (e : Z) :
  let F := fexp prec emax (Z.pos (digits2_pos M) + e) in
  e <= F ->
  exists m,
    binary_round_aux prec emax s (Z.pos M) e loc_Exact = pack s m F
    /\ Z.pos M / 2 ^ (F - e) <= m <= Z.pos M / 2 ^ (F - e) + 1
    /\ (F = e -> m = Z.pos M)
    /\ m <= 2 ^ 53
    /\ (-1074 < F -> 2 ^ 52 <= m).
Proof.
  intros F HeF.
  destruct (first_shift M e HeF) as (mrs & Hshift & Hm1 & Hexact). fold F in Hshift, Hm1, Hexact.
  unfold binary_round_aux. rewrite Hshift.
  set (m2 := round_nearest_even (shr_m mrs) (loc_of_shr_record mrs)).
  pose proof (round_nearest_even_bounds (shr_m mrs) (loc_of_shr_record mrs)) as Hm2.
  fold m2 in Hm2. rewrite Hm1 in Hm2.
  pose proof (digits2_pos_bounds M) as Hd.
  set (d := Z.pos (digits2_pos M)) in *.
  assert (HF : -1074 <= F) by (unfold F; rewrite fexp_eq; lia).
  assert (HFd : d + e - 53 <= F) by (unfold F; rewrite fexp_eq; lia).
  assert (Hpow : 0 < 2 ^ (F - e)) by (apply Z.pow_pos_nonneg; lia).
  assert (Hlt : Z.pos M / 2 ^ (F - e) < 2 ^ 53).
  { apply Z.div_lt_upper_bound; [exact Hpow|].
    rewrite <- Z.pow_add_r by lia.
    eapply Z.lt_le_trans; [apply Hd|]. apply Z.pow_le_mono_r; lia. }
  assert (Hge0 : 0 <= Z.pos M / 2 ^ (F - e)) by (apply Z.div_pos; lia).
  exists m2. split; [|split; [|split; [|split]]].
  - apply second_shift; lia.
  - exact Hm2.
  - intros HFe. unfold m2. rewrite (Hexact HFe). simpl. rewrite Hm1.
    replace (F - e) with 0 by lia. apply Z.div_1_r.
  - lia.
  - intros HFmin.
    assert (HFeq : F = d + e - 53) by (unfold F in *; rewrite fexp_eq in *; lia).
    assert (2 ^ 52 <= Z.pos M / 2 ^ (F - e)); [|lia].
    apply Z.div_le_lower_bound; [exact Hpow|].
    rewrite <- Z.pow_add_r by lia.
    replace (F - e + 52) with (d - 1) by lia. apply Hd.
Qed.

(** ** What rounding builds *)

Lemma digits2_pos_le_53 (p : positive) :
  Z.pos p < 2 ^ 53 -> Z.pos (digits2_pos p) <= 53.
Proof.
  intros Hlt. pose proof (digits2_pos_bounds p) as Hd.
  assert (H : 2 ^ (Z.pos (digits2_pos p) - 1) < 2 ^ 53) by lia.
  apply Z.pow_lt_mono_r_iff in H; lia.
Qed.

(** A packed number is a binary64 number. *)
Lemma pack_valid (s : bool) (m F : Z) :
  0 <= m <= 2 ^ 53 -> -1074 <= F -> (-1074 < F -> 2 ^ 52 <= m) ->
  valid_binary prec emax (pack s m F) = true.
Proof.
  intros Hm HF Hnorm. unfold pack.
  destruct m as [|p|p]; [reflexivity| |lia].
  destruct (Z.ltb_spec (Z.pos p) (2 ^ 53)) as [Hlt|Hge].
  - destruct (Z.leb_spec F (emax - prec)) as [Hle|Hgt]; [|reflexivity].
    simpl. unfold bounded, canonical_mantissa.
    apply andb_true_intro. split; [|apply Z.leb_le; exact Hle].
    apply Z.eqb_eq. rewrite fexp_eq.
    pose proof (digits2_pos_le_53 p Hlt).
    destruct (Z.eq_dec F (-1074)) as [->|Hne]; [lia|].
    rewrite (digits2_pos_unique p 53); lia.
  - destruct (Z.leb_spec (F + 1) (emax - prec)) as [Hle|Hgt]; [|reflexivity].
    simpl. unfold bounded, canonical_mantissa.
    apply andb_true_intro. split; [|apply Z.leb_le; exact Hle].
    apply Z.eqb_eq. rewrite fexp_eq.
    change (Z.pos (digits2_pos 4503599627370496)) with 53. lia.
Qed.

Lemma pack_signed (s : bool) (m F : Z) : 0 <= m -> signed s (pack s m F).
Proof.
  intros Hm. unfold pack. destruct m as [|p|p]; [reflexivity| |lia].
  destruct (Z.pos p <? 2 ^ 53).
  - destruct (F <=? emax - prec); reflexivity.
  - destruct (F + 1 <=? emax - prec); reflexivity.
Qed.

Lemma SFcompare_pos_pos (m1 : positive) (e1 : Z) (m2 : positive) (e2 : Z) :
  SFcompare (S754_finite false m1 e1) (S754_finite false m2 e2)
  = Some match e1 ?= e2 with
         | Lt => Lt
         | Gt => Gt
         | Eq => Pos.compare m1 m2
         end.
Proof. reflexivity. Qed.

Lemma SFcompare_neg_neg (m1 : positive) (e1 : Z) (m2 : positive) (e2 : Z) :
  SFcompare (S754_finite true m1 e1) (S754_finite true m2 e2)
  = Some match e1 ?= e2 with
         | Lt => Gt
         | Gt => Lt
         | Eq => CompOpp (Pos.compare m1 m2)
         end.
Proof. reflexivity. Qed.

(** A packed number of exponent at most -53 is at most one. *)
Lemma pack_le_one (m F : Z) :
  0 <= m <= 2 ^ 53 -> F <= -53 -> fle (pack false m F) c1_0 = true.
Proof.
  intros Hm HF. unfold pack, fle, SFleb, c1_0.
  destruct m as [|p|p]; [reflexivity| |lia].
  destruct (Z.ltb_spec (Z.pos p) (2 ^ 53)) as [Hlt|Hge].
  - destruct (Z.leb_spec F (emax - prec)) as [Hle|Hgt];
      [|unfold emax, prec in Hgt; lia].
    rewrite SFcompare_pos_pos.
    destruct (Z.compare_spec F (-52)); try reflexivity; lia.
  - destruct (Z.leb_spec (F + 1) (emax - prec)) as [Hle|Hgt];
      [|unfold emax, prec in Hgt; lia].
    rewrite SFcompare_pos_pos, Pos.compare_refl.
    destruct (Z.compare_spec (F + 1) (-52)); try reflexivity; lia.
Qed.

(** [shl_align] lowers the exponent to [F] when it is above, and keeps
    the value. *)
Lemma shl_align_spec (mx : positive) (ex F : Z) :
  let '(mz, ez) := shl_align mx ex F in
  ez <= F /\ ez <= ex /\ (F <= ex -> ez = F)
  /\ Z.pos mz = Z.pos mx * 2 ^ (ex - ez)
  /\ Z.pos (digits2_pos mz) + ez = Z.pos (digits2_pos mx) + ex.
Proof.
  unfold shl_align. destruct (F - ex) as [|d|d] eqn:Hd.
  - replace (ex - ex) with 0 by lia. simpl. repeat apply conj; lia.
  - replace (ex - ex) with 0 by lia. simpl. repeat apply conj; lia.
  - assert (Hval : Z.pos (Pos.iter xO mx d) = Z.pos mx * 2 ^ (ex - F)).
    { change (Pos.iter xO mx d) with (shift_pos d mx).
      rewrite shift_pos_correct, Z.pow_pos_fold.
      replace (ex - F) with (Z.pos d) by lia. lia. }
    repeat apply conj; try lia.
    pose proof (digits2_pos_bounds mx) as Hb.
    assert (Z.pos (digits2_pos (Pos.iter xO mx d))
            = Z.pos (digits2_pos mx) + (ex - F)); [|lia].
    apply digits2_pos_unique. rewrite Hval.
    replace (Z.pos (digits2_pos mx) + (ex - F) - 1)
      with ((Z.pos (digits2_pos mx) - 1) + (ex - F)) by lia.
    rewrite !Z.pow_add_r by lia.
    assert (0 < 2 ^ (ex - F)) by (apply Z.pow_pos_nonneg; lia).
    split; [apply Z.mul_le_mono_nonneg_r | apply Z.mul_lt_mono_pos_r]; lia.
Qed.

(** [binary_round] always packs, and is exact when no bit is lost. *)
Lemma binary_round_exact (s : bool) (mx : positive) (ex : Z) :
  let F := fexp prec emax (Z.pos (digits2_pos mx) + ex) in
  exists m,
    binary_round prec emax s mx ex = pack s m F
    /\ 0 <= m <= 2 ^ 53
    /\ (-1074 < F -> 2 ^ 52 <= m)
    /\ (F <= ex -> m = Z.pos mx * 2 ^ (ex - F)).
Proof.
  intros F. unfold binary_round. fold F.
  pose proof (shl_align_spec mx ex F) as Hal.
  destruct (shl_align mx ex F) as [mz ez].
  destruct Hal as (HezF & Hezx & Hez & Hval & Hdig).
  assert (HF : fexp prec emax (Z.pos (digits2_pos mz) + ez) = F)
    by (rewrite Hdig; reflexivity).
  destruct (binary_round_aux_exact s mz ez) as (m & Heq & Hm & Hexact & Hle & Hnorm).
  { rewrite HF. exact HezF. }
  rewrite HF in Heq, Hm, Hexact, Hnorm.
  exists m. repeat apply conj; try assumption.
  - assert (0 <= Z.pos mz / 2 ^ (F - ez)); [|lia].
    apply Z.div_pos; [lia | apply Z.pow_pos_nonneg; lia].
  - intros HFex. rewrite Hexact by (symmetry; apply Hez; exact HFex).
    rewrite Hval, (Hez HFex). reflexivity.
Qed.

(** ** Signs and validity of the operations *)

Lemma signed_not_negative (x : float) : signed false x -> not_negative x.
Proof. destruct x as [s|s| |s m e]; simpl; intros Hs; subst; auto. Qed.

Lemma signed_not_nan (s : bool) (x : float) : signed s x -> not_nan x.
Proof. destruct x; simpl; auto. Qed.

Lemma not_negative_zero_le (q : float) :
  not_negative q -> not_nan q -> fle c0_0 q = true.
Proof. destruct q as [s|[|]| |[|] m e]; simpl; intros H1 H2; tauto || reflexivity. Qed.

Lemma flt_fle (x y : float) : flt x y = true -> fle x y = true.
Proof.
  unfold flt, fle, SFltb, SFleb. destruct (SFcompare x y) as [[| |]|]; congruence.
Qed.

Lemma flt_not_nan_l (x y : float) : flt x y = true -> not_nan x.
Proof. destruct x; simpl; auto. discriminate. Qed.

Lemma flt_not_nan_r (x y : float) : flt x y = true -> not_nan y.
Proof. destruct x, y; simpl; auto; discriminate. Qed.

(** Rounding a nonnegative mantissa with any location. *)

Lemma shr_record_of_loc_m (m : Z) (l : location) :
  shr_m (shr_record_of_loc m l) = m.
Proof. destruct l as [|[| |]]; reflexivity. Qed.

Lemma shr_fexp_m_nonneg (M e : Z) (l : location) :
  0 <= M -> 0 <= shr_m (fst (shr_fexp prec emax M e l)).
Proof.
  intros HM. unfold shr_fexp, shr.
  destruct (fexp prec emax (Zdigits2 M + e) - e) as [|p|p]; simpl;
    rewrite ?iter_pos_shr_m; rewrite ?shr_record_of_loc_m; try lia.
  apply Z.div_pos; [lia | apply Z.pow_pos_nonneg; lia].
Qed.

(** Whatever the location, the result carries the sign it was given and
    is a number. *)
Lemma binary_round_aux_signed (s : bool) (M e : Z) (l : location) :
  0 <= M -> signed s (binary_round_aux prec emax s M e l).
Proof.
  intros HM. unfold binary_round_aux.
  pose proof (shr_fexp_m_nonneg M e l HM) as H1.
  destruct (shr_fexp prec emax M e l) as [mrs e1]. simpl in H1.
  pose proof (round_nearest_even_bounds (shr_m mrs) (loc_of_shr_record mrs)) as Hr.
  set (m2 := round_nearest_even (shr_m mrs) (loc_of_shr_record mrs)) in *.
  pose proof (shr_fexp_m_nonneg m2 e1 loc_Exact ltac:(lia)) as H2.
  destruct (shr_fexp prec emax m2 e1 loc_Exact) as [mrs2 e2]. simpl in H2.
  destruct (shr_m mrs2) as [|p|p]; [reflexivity| |lia].
  destruct (e2 <=? emax - prec); reflexivity.
Qed.

Lemma binary_normalize_pack (z e : Z) :
  z <> 0 ->
  exists m,
    binary_normalize prec emax z e false
      = pack (z <? 0) m (fexp prec emax (Zdigits2 z + e))
    /\ 0 <= m <= 2 ^ 53
    /\ (-1074 < fexp prec emax (Zdigits2 z + e) -> 2 ^ 52 <= m)
    /\ (fexp prec emax (Zdigits2 z + e) <= e ->
        m = Z.abs z * 2 ^ (e - fexp prec emax (Zdigits2 z + e))).
Proof.
  intros Hz. destruct z as [|p|p]; [congruence| |].
  - destruct (binary_round_exact false p e) as (m & H1 & H2 & H3 & H4).
    exists m. split; [exact H1 | split; [exact H2 | split; [exact H3 | exact H4]]].
  - destruct (binary_round_exact true p e) as (m & H1 & H2 & H3 & H4).
    exists m. split; [exact H1 | split; [exact H2 | split; [exact H3 | exact H4]]].
Qed.

Lemma binary_normalize_valid (z e : Z) :
  valid_binary prec emax (binary_normalize prec emax z e false) = true.
Proof.
  destruct (Z.eq_dec z 0) as [->|Hz]; [reflexivity|].
  destruct (binary_normalize_pack z e Hz) as (m & -> & Hm & Hn & _).
  apply pack_valid; try assumption. rewrite fexp_eq. lia.
Qed.

Lemma binary_normalize_not_nan (z e : Z) :
  not_nan (binary_normalize prec emax z e false).
Proof.
  destruct (Z.eq_dec z 0) as [->|Hz]; [exact I|].
  destruct (binary_normalize_pack z e Hz) as (m & -> & Hm & _).
  apply (signed_not_nan (z <? 0)), pack_signed. lia.
Qed.

Lemma binary_normalize_not_negative (z e : Z) :
  0 <= z -> not_negative (binary_normalize prec emax z e false).
Proof.
  intros Hz0. destruct (Z.eq_dec z 0) as [->|Hz]; [exact I|].
  destruct (binary_normalize_pack z e Hz) as (m & -> & Hm & _).
  apply signed_not_negative.
  replace (z <? 0) with false by (symmetry; apply Z.ltb_ge; lia).
  apply pack_signed. lia.
Qed.

(** Sums, differences and products of binary64 numbers are binary64
    numbers. *)
Lemma SFadd_valid (x y : float) :
  valid_binary prec emax x = true -> valid_binary prec emax y = true ->
  valid_binary prec emax (fadd x y) = true.
Proof.
  intros Hx Hy. unfold fadd.
  destruct x as [sx|sx| |sx mx ex], y as [sy|sy| |sy my ey];
    try exact Hx; try exact Hy; try reflexivity;
    try (destruct sx, sy; reflexivity || assumption).
  unfold SFadd. apply binary_normalize_valid.
Qed.

Lemma SFsub_valid (x y : float) :
  valid_binary prec emax x = true -> valid_binary prec emax y = true ->
  valid_binary prec emax (fsub x y) = true.
Proof.
  intros Hx Hy. unfold fsub.
  destruct x as [sx|sx| |sx mx ex], y as [sy|sy| |sy my ey];
    try exact Hx; try exact Hy; try reflexivity;
    try (destruct sx, sy; reflexivity || assumption).
  unfold SFsub. apply binary_normalize_valid.
Qed.

Lemma bounded_cases (m : positive) (e : Z) :
  bounded prec emax m e = true ->
  Z.pos (digits2_pos m) <= 53 /\ -1074 <= e <= 971
  /\ (Z.pos (digits2_pos m) = 53 \/ e = -1074).
Proof.
  unfold bounded, canonical_mantissa. rewrite fexp_eq.
  intros Hb. apply andb_true_iff in Hb. destruct Hb as [Hc He].
  apply Z.eqb_eq in Hc. apply Z.leb_le in He.
  unfold emax, prec in He. lia.
Qed.

Lemma digits2_pos_mul (a b : positive) :
  Z.pos (digits2_pos a) + Z.pos (digits2_pos b) - 1
    <= Z.pos (digits2_pos (a * b)).
Proof.
  pose proof (digits2_pos_bounds a) as Ha.
  pose proof (digits2_pos_bounds b) as Hb.
  pose proof (digits2_pos_bounds (a * b)) as Hab.
  set (da := Z.pos (digits2_pos a)) in *. set (db := Z.pos (digits2_pos b)) in *.
  set (dab := Z.pos (digits2_pos (a * b))) in *.
  assert (0 < da) by (unfold da; lia). assert (0 < db) by (unfold db; lia).
  assert (H2 : 2 ^ (da - 1 + (db - 1)) < 2 ^ dab).
  { rewrite Z.pow_add_r by lia. rewrite Pos2Z.inj_mul in Hab.
    eapply Z.le_lt_trans; [|apply Hab].
    apply Z.mul_le_mono_nonneg; try lia; apply Z.pow_nonneg; lia. }
  apply Z.pow_lt_mono_r_iff in H2; unfold dab; lia.
Qed.

Lemma SFmul_valid (x y : float) :
  valid_binary prec emax x = true -> valid_binary prec emax y = true ->
  valid_binary prec emax (fmul x y) = true.
Proof.
  intros Hx Hy. unfold fmul.
  destruct x as [sx|sx| |sx mx ex], y as [sy|sy| |sy my ey]; try reflexivity.
  simpl in Hx, Hy. unfold SFmul.
  apply bounded_cases in Hx, Hy.
  pose proof (digits2_pos_mul mx my) as Hd.
  destruct (binary_round_aux_exact (xorb sx sy) (mx * my) (ex + ey))
    as (m & -> & Hm & _ & Hle & Hn).
  { rewrite fexp_eq. lia. }
  apply pack_valid; try assumption.
  - split; [|exact Hle].
    assert (0 <= Z.pos (mx * my) / 2 ^ (fexp prec emax (Z.pos (digits2_pos (mx * my)) + (ex + ey)) - (ex + ey))); [|lia].
    apply Z.div_pos; [lia|]. apply Z.pow_pos_nonneg; [lia|]. rewrite fexp_eq. lia.
  - rewrite fexp_eq. lia.
Qed.

(** ** Differences and quotients against a threshold *)

Lemma shl_align_fst (mx : positive) (ex ez : Z) :
  ez <= ex -> Z.pos (fst (shl_align mx ex ez)) = Z.pos mx * 2 ^ (ex - ez).
Proof.
  intros Hle. pose proof (shl_align_spec mx ex ez) as Hs.
  destruct (shl_align mx ex ez) as [mz ez']. simpl.
  destruct Hs as (_ & _ & Heq & Hval & _). rewrite Hval, (Heq Hle). reflexivity.
Qed.

Lemma bounded_lt (m : positive) (e : Z) :
  bounded prec emax m e = true -> Z.pos m < 2 ^ 53.
Proof.
  intros Hb. apply bounded_cases in Hb. destruct Hb as (Hd & _ & _).
  pose proof (digits2_pos_bounds m) as Hm.
  eapply Z.lt_le_trans; [apply Hm|]. apply Z.pow_le_mono_r; lia.
Qed.

Lemma bounded_normal (m : positive) (e : Z) :
  bounded prec emax m e = true -> -1074 < e -> 2 ^ 52 <= Z.pos m.
Proof.
  intros Hb He. apply bounded_cases in Hb. destruct Hb as (_ & _ & [Hd|Hd]); [|lia].
  pose proof (digits2_pos_bounds m) as Hm. rewrite Hd in Hm. apply Hm.
Qed.

(** The aligned mantissa of the larger of two positive numbers is the
    larger one. *)
Lemma aligned_ge (m : positive) (e : Z) (m0 : positive) (e0 : Z) :
  bounded prec emax m e = true -> bounded prec emax m0 e0 = true ->
  match e0 ?= e with Lt => Lt | Gt => Gt | Eq => Pos.compare m0 m end = Lt ->
  Z.pos m0 * 2 ^ (e0 - Z.min e e0) <= Z.pos m * 2 ^ (e - Z.min e e0).
Proof.
  intros Hb Hb0 Hcmp.
  pose proof (bounded_lt _ _ Hb0) as Hm0.
  revert Hcmp.
  destruct (Z.compare_spec e0 e) as [Heq|Hlt|Hgt]; intros Hcmp; [| |discriminate].
  - subst e0. rewrite Z.min_id, Z.sub_diag, Z.pow_0_r.
    pose proof (proj1 (Pos.compare_lt_iff _ _) Hcmp). lia.
  - replace (Z.min e e0) with e0 by lia. rewrite Z.sub_diag, Z.pow_0_r, Z.mul_1_r.
    assert (He0 : -1074 <= e0) by (apply bounded_cases in Hb0; lia).
    pose proof (bounded_normal _ _ Hb ltac:(lia)) as Hm.
    assert (2 ^ 1 <= 2 ^ (e - e0)) by (apply Z.pow_le_mono_r; lia).
    change (2 ^ 1) with 2 in *. nia.
Qed.

(** A number above a positive threshold minus the threshold, and a
    negative threshold minus a number below it, are not negative. *)
Lemma sub_threshold_not_negative (s : float) (m0 : positive) (e0 : Z) :
  valid_binary prec emax s = true -> bounded prec emax m0 e0 = true ->
  flt (S754_finite false m0 e0) s = true ->
  not_negative (fsub s (S754_finite false m0 e0)).
Proof.
  intros Hv Hb0 Hlt. unfold flt, SFltb in Hlt. unfold fsub.
  destruct s as [sx|sx| |sx m e].
  - destruct sx; discriminate.
  - destruct sx; [discriminate | exact I].
  - discriminate.
  - destruct sx; [discriminate|].
    rewrite SFcompare_pos_pos in Hlt.
    unfold SFsub, cond_Zopp. apply binary_normalize_not_negative.
    rewrite !shl_align_fst by lia.
    pose proof (aligned_ge m e m0 e0 Hv Hb0) as Hge.
    destruct (match e0 ?= e with Lt => Lt | Gt => Gt | Eq => Pos.compare m0 m end);
      try discriminate.
    specialize (Hge eq_refl). lia.
Qed.

Lemma threshold_sub_not_negative (s : float) (m0 : positive) (e0 : Z) :
  valid_binary prec emax s = true -> bounded prec emax m0 e0 = true ->
  flt s (S754_finite true m0 e0) = true ->
  not_negative (fsub (S754_finite true m0 e0) s).
Proof.
  intros Hv Hb0 Hlt. unfold flt, SFltb in Hlt. unfold fsub.
  destruct s as [sx|sx| |sx m e].
  - destruct sx; discriminate.
  - destruct sx; [exact I | discriminate].
  - discriminate.
  - destruct sx; [|discriminate].
    rewrite SFcompare_neg_neg in Hlt.
    unfold SFsub, cond_Zopp. apply binary_normalize_not_negative.
    rewrite !shl_align_fst by lia.
    pose proof (aligned_ge m e m0 e0 Hv Hb0) as Hge.
    rewrite (Z.compare_antisym e0 e), (Pos.compare_antisym m0 m) in Hlt.
    rewrite (Z.min_comm e0 e).
    destruct (e0 ?= e); simpl in Hlt, Hge.
    + destruct (Pos.compare m0 m); simpl in Hlt; try discriminate.
      specialize (Hge eq_refl). lia.
    + specialize (Hge eq_refl). lia.
    + discriminate.
Qed.

(** Dividing by a positive number keeps a number from being negative. *)
Lemma SFdiv_not_negative (d : float) (my : positive) (ey : Z) :
  not_negative d -> not_negative (SFdiv prec emax d (S754_finite false my ey)).
Proof.
  intros Hd. destruct d as [sx|sx| |sx mx ex]; try exact I.
  - destruct sx; [contradiction | exact I].
  - destruct sx; [contradiction|].
    unfold SFdiv.
    destruct (SFdiv_core_binary prec emax (Z.pos mx) ex (Z.pos my) ey)
      as [[mz ez] lz] eqn:Hcore.
    apply signed_not_negative. change (xorb false false) with false.
    apply binary_round_aux_signed.
    unfold SFdiv_core_binary in Hcore.
    set (m' := match _ - _ - Z.min _ _ with Z0 => _ | Zpos _ => _ | Zneg _ => _ end)
      in Hcore.
    assert (Hm' : 0 <= m').
    { unfold m'. destruct (_ - _ - Z.min _ _); try lia.
      apply Z.shiftl_nonneg. lia. }
    pose proof (Z.div_pos m' (Z.pos my) Hm' ltac:(lia)) as Hq.
    unfold Z.div in Hq. destruct (Z.div_eucl m' (Z.pos my)) as [q r].
    injection Hcore as <- _ _. exact Hq.
Qed.

(** ** Clamping and the confidence formulas *)

Lemma SFcompare_neg_pos (m1 : positive) (e1 : Z) (m2 : positive) (e2 : Z) :
  SFcompare (S754_finite true m1 e1) (S754_finite false m2 e2) = Some Lt.
Proof. reflexivity. Qed.

Lemma SFcompare_pos_neg (m1 : positive) (e1 : Z) (m2 : positive) (e2 : Z) :
  SFcompare (S754_finite false m1 e1) (S754_finite true m2 e2) = Some Gt.
Proof. reflexivity. Qed.

Lemma fle_refl_finite (s : bool) (m : positive) (e : Z) :
  fle (S754_finite s m e) (S754_finite s m e) = true.
Proof.
  unfold fle, SFleb. destruct s.
  - rewrite SFcompare_neg_neg, Z.compare_refl, Pos.compare_refl. reflexivity.
  - rewrite SFcompare_pos_pos, Z.compare_refl, Pos.compare_refl. reflexivity.
Qed.

Section Clamp.

Variables (m0 : positive) (e0 : Z).
Let lo : float := S754_finite true m0 e0.
Let hi : float := S754_finite false m0 e0.

(** The clamp of the program lies between the bounds, whatever [x]. *)
Lemma clamp_between (x : float) :
  Spec.between lo hi (py_max lo (py_min hi x)) = true.
Proof.
  unfold Spec.between, py_max, py_min, fgt.
  assert (Hlh : flt lo hi = true) by reflexivity.
  assert (Hlh' : fle lo hi = true) by reflexivity.
  assert (Hll : fle lo lo = true) by apply fle_refl_finite.
  assert (Hhh : fle hi hi = true) by apply fle_refl_finite.
  destruct (flt x hi) eqn:Hxh.
  - change (SFltb lo x) with (flt lo x). destruct (flt lo x) eqn:Hlx.
    + rewrite (flt_fle _ _ Hlx), (flt_fle _ _ Hxh). reflexivity.
    + rewrite Hll, Hlh'. reflexivity.
  - change (SFltb lo hi) with (flt lo hi). rewrite Hlh, Hlh', Hhh. reflexivity.
Qed.

Lemma clamp_valid (x : float) :
  valid_binary prec emax x = true -> bounded prec emax m0 e0 = true ->
  valid_binary prec emax (py_max lo (py_min hi x)) = true.
Proof.
  intros Hx Hb. unfold py_max, py_min.
  destruct (flt x hi); destruct (fgt _ lo); assumption.
Qed.

(** On a number it is the clamp of the specification. *)
Lemma clamp_code_spec (x : float) :
  not_nan x -> py_max lo (py_min hi x) = Spec.clamp x lo hi.
Proof.
  intros Hx. unfold py_max, py_min, Spec.clamp, fgt, flt, SFltb, lo, hi.
  destruct x as [sx|sx| |sx m e]; try contradiction.
  - destruct sx; reflexivity.
  - destruct sx; reflexivity.
  - destruct sx;
      rewrite ?SFcompare_neg_pos, ?SFcompare_pos_neg, ?SFcompare_pos_pos,
        ?SFcompare_neg_neg;
      rewrite (Z.compare_antisym e e0), (Pos.compare_antisym m m0);
      destruct (Z.compare_spec e e0); simpl; try reflexivity;
      destruct (Pos.compare_spec m m0); simpl; subst; reflexivity.
Qed.

Lemma clamp_not_nan (x : float) : not_nan (py_max lo (py_min hi x)).
Proof.
  pose proof (clamp_between x) as Hb. unfold Spec.between in Hb.
  apply andb_true_iff in Hb. destruct Hb as [_ Hb].
  destruct (py_max lo (py_min hi x)); try exact I. discriminate.
Qed.

End Clamp.

(** The minimum of one and a quotient that is not negative. *)
Lemma py_min_one_range (q : float) :
  not_negative q -> Spec.between c0_0 c1_0 (py_min c1_0 q) = true.
Proof.
  intros Hq. unfold Spec.between, py_min. destruct (flt q c1_0) eqn:Hlt.
  - rewrite (flt_fle _ _ Hlt), not_negative_zero_le; auto.
    exact (flt_not_nan_l _ _ Hlt).
  - vm_compute. reflexivity.
Qed.

Lemma digits_le_of_lt (p : positive) (k : Z) :
  0 <= k -> Z.pos p < 2 ^ k -> Z.pos (digits2_pos p) <= k.
Proof.
  intros Hk Hlt. pose proof (digits2_pos_bounds p) as Hd.
  assert (H : 2 ^ (Z.pos (digits2_pos p) - 1) < 2 ^ k) by lia.
  apply Z.pow_lt_mono_r_iff in H; lia.
Qed.

(** One minus a small number: between nine tenths and one. *)
Lemma one_minus_abs_range (s : float) (mt : positive) (et : Z) :
  valid_binary prec emax s = true -> not_nan s -> et <= -53 ->
  fgt s (S754_finite false mt et) = false ->
  flt s (S754_finite true mt et) = false ->
  Spec.between c0_0 c1_0 (fsub c1_0 (fabs s)) = true.
Proof.
  intros Hv Hnn Het Hpos Hneg. unfold fgt, flt, SFltb in Hpos, Hneg.
  destruct s as [sx|sx| |sx m e]; try contradiction.
  - vm_compute. reflexivity.
  - destruct sx; discriminate.
  - assert (He : e <= et).
    { destruct sx.
      - rewrite SFcompare_neg_neg in Hneg. revert Hneg.
        destruct (Z.compare_spec e et); intros Hneg; lia || discriminate.
      - rewrite SFcompare_pos_pos in Hpos. revert Hpos.
        destruct (Z.compare_spec et e); intros Hpos; lia || discriminate. }
    simpl in Hv. pose proof (bounded_lt _ _ Hv) as Hm.
    unfold fabs, SFabs, fsub, c1_0, SFsub, cond_Zopp.
    rewrite !shl_align_fst by lia.
    replace (Z.min (-52) e) with e by lia.
    rewrite Z.sub_diag, Z.pow_0_r, Z.mul_1_r.
    change 4503599627370496 with (2 ^ 52). rewrite <- Z.pow_add_r by lia.
    replace (52 + (-52 - e)) with (- e) by lia.
    assert (Hbig : 2 ^ 53 <= 2 ^ (- e)) by (apply Z.pow_le_mono_r; lia).
    set (D := 2 ^ (- e) - Z.pos m).
    assert (HD : 0 < D) by (unfold D; lia).
    destruct (binary_normalize_pack D e ltac:(lia)) as (m' & -> & Hm' & _).
    replace (D <? 0) with false by (symmetry; apply Z.ltb_ge; lia).
    unfold Spec.between. apply andb_true_iff. split.
    + apply not_negative_zero_le.
      * apply signed_not_negative, pack_signed. lia.
      * apply (signed_not_nan false), pack_signed. lia.
    + apply pack_le_one; [exact Hm'|].
      rewrite fexp_eq.
      assert (Zdigits2 D <= - e); [|lia].
      destruct D as [|p|p] eqn:HDp; try lia. simpl.
      apply digits_le_of_lt; lia.
Qed.

(** ** Integers against rounded products *)

Lemma pack_finite_or_zero (s : bool) (m F : Z) :
  0 <= m -> F + 1 <= emax - prec -> finite_or_zero (pack s m F).
Proof.
  intros Hm HF. unfold pack. destruct m as [|p|p]; [exact I| |lia].
  destruct (Z.pos p <? 2 ^ 53).
  - destruct (Z.leb_spec F (emax - prec)); [exact I | lia].
  - destruct (Z.leb_spec (F + 1) (emax - prec)); [exact I | lia].
Qed.

Lemma ltb_iff_eq (a b c d : Z) : (a < b <-> c < d) -> (a <? b) = (c <? d).
Proof.
  intros Hiff. destruct (Z.ltb_spec a b), (Z.ltb_spec c d); try reflexivity; lia.
Qed.

(** Comparing an integer with a rounded positive number of exponent at
    most zero. *)
Lemma int_gt_float_pack (i m F : Z) :
  F <= 0 -> 0 < m <= 2 ^ 53 ->
  int_gt_float i (pack false m F) = (m <? i * 2 ^ (- F)).
Proof.
  intros HF Hm. unfold pack. destruct m as [|p|p]; try lia.
  destruct (Z.ltb_spec (Z.pos p) (2 ^ 53)) as [Hlt|Hge].
  - destruct (Z.leb_spec F (emax - prec)) as [_|Hgt];
      [|unfold emax, prec in Hgt; lia].
    unfold int_gt_float. destruct (Z.leb_spec 0 F) as [H0|H0].
    + replace F with 0 by lia. simpl. apply ltb_iff_eq. lia.
    + reflexivity.
  - assert (Hp : Z.pos p = 2 ^ 53) by lia. rewrite Hp.
    destruct (Z.leb_spec (F + 1) (emax - prec)) as [_|Hgt];
      [|unfold emax, prec in Hgt; lia].
    unfold int_gt_float. change (Z.pos 4503599627370496) with (2 ^ 52).
    assert (Hpow : 2 ^ (- F) = 2 * 2 ^ (- (F + 1)) \/ F = 0).
    { destruct (Z.eq_dec F 0) as [|Hne]; [right; assumption|left].
      replace (- F) with (1 + - (F + 1)) by lia.
      rewrite Z.pow_add_r by lia. reflexivity. }
    destruct (Z.leb_spec 0 (F + 1)) as [H0|H0].
    + assert (HF' : F = 0 \/ F = -1) by lia.
      destruct HF' as [->| ->]; simpl; apply ltb_iff_eq; lia.
    + destruct Hpow as [Hpow|]; [|lia]. rewrite Hpow.
      apply ltb_iff_eq. lia.
Qed.

(** An integer below [2^53] converts exactly: its mantissa is the integer
    shifted up to 53 bits. *)
Lemma float_of_small_int (n : Z) :
  0 < n < 2 ^ 53 ->
  exists pm,
    binary_normalize prec emax n 0 false
      = S754_finite false pm (Zdigits2 n - 53)
    /\ Z.pos pm = n * 2 ^ (53 - Zdigits2 n)
    /\ 2 ^ 52 <= Z.pos pm < 2 ^ 53
    /\ 1 <= Zdigits2 n <= 53.
Proof.
  intros Hn.
  destruct (binary_normalize_pack n 0 ltac:(lia)) as (m & Heq & Hm & Hnorm & Hexact).
  destruct n as [|p|p]; try lia. simpl Zdigits2 in *.
  pose proof (digits2_pos_bounds p) as Hd.
  pose proof (digits2_pos_le_53 p ltac:(lia)) as Hd53.
  set (d := Z.pos (digits2_pos p)) in *.
  assert (Hd1 : 1 <= d) by (unfold d; lia).
  rewrite fexp_eq in Heq, Hnorm, Hexact.
  replace (Z.max (d + 0 - 53) (-1074)) with (d - 53) in * by lia.
  specialize (Hnorm ltac:(lia)). specialize (Hexact ltac:(lia)).
  replace (0 - (d - 53)) with (53 - d) in Hexact by lia.
  change (Z.abs (Z.pos p)) with (Z.pos p) in Hexact.
  assert (Hlt : m < 2 ^ 53).
  { rewrite Hexact. replace 53 with (d + (53 - d)) at 2 by lia.
    rewrite Z.pow_add_r by lia. apply Z.mul_lt_mono_pos_r; [|lia].
    apply Z.pow_pos_nonneg; lia. }
  destruct m as [|pm|pm]; try lia.
  exists pm. rewrite Heq. unfold pack.
  replace (Z.pos p <? 0) with false by reflexivity.
  destruct (Z.ltb_spec (Z.pos pm) (2 ^ 53)); [|lia].
  destruct (Z.leb_spec (d - 53) (emax - prec)) as [_|Hgt];
    [|unfold emax, prec in Hgt; lia].
  repeat apply conj; try reflexivity; try lia.
Qed.

(** The product with 0.8 is rounded so that an integer exceeds it exactly
    when it exceeds four fifths. *)
Lemma exceeds_four_fifths (n i : Z) :
  0 < n < 2 ^ 50 ->
  int_gt_float i (fmul (binary_normalize prec emax n 0 false) c0_8)
  = (4 * n <? 5 * i).
Proof.
  intros Hn.
  assert (Hn50 : 2 ^ 50 < 2 ^ 53) by reflexivity.
  destruct (float_of_small_int n ltac:(lia)) as (pm & -> & Hpm & Hrange & Hd).
  assert (Hd50 : Zdigits2 n <= 50).
  { destruct n as [|p|p]; try lia. simpl. apply digits_le_of_lt; lia. }
  set (d := Zdigits2 n) in *.
  unfold fmul, c0_8, SFmul. change (xorb false false) with false.
  set (m08 := 7205759403792794%positive).
  pose proof (digits2_pos_mul pm m08) as Hmul.
  change (Z.pos (digits2_pos m08)) with 53 in Hmul.
  rewrite (digits2_pos_unique pm 53) in Hmul by (simpl; lia).
  assert (Hprod : Z.pos (pm * m08) < 2 ^ 106).
  { rewrite Pos2Z.inj_mul. change (2 ^ 106) with (2 ^ 53 * 2 ^ 53).
    apply Z.mul_lt_mono_nonneg; unfold m08; lia. }
  apply digits_le_of_lt in Hprod; [|lia].
  set (D := Z.pos (digits2_pos (pm * m08))) in *.
  destruct (binary_round_aux_exact false (pm * m08) (d - 53 + -53))
    as (m & -> & Hm & _ & Hle & Hnorm).
  { rewrite fexp_eq. fold D. lia. }
  fold D in Hm, Hnorm. rewrite fexp_eq in *. fold D.
  replace (Z.max (D + (d - 53 + -53) - 53) (-1074)) with (D + d - 159) in * by lia.
  specialize (Hnorm ltac:(lia)).
  rewrite int_gt_float_pack by lia.
  replace (D + d - 159 - (d - 53 + -53)) with (D - 53) in Hm by lia.
  replace (- (D + d - 159)) with (159 - D - d) by lia.
  set (A := 2 ^ (53 - d)) in *.
  assert (HA : 8 <= A).
  { change 8 with (2 ^ 3). apply Z.pow_le_mono_r; lia. }
  rewrite Pos2Z.inj_mul, Hpm in Hm.
  set (X := n * A) in *.
  assert (HX : 0 < X < 2 ^ 53) by lia.
  apply ltb_iff_eq.
  set (Y := i * A).
  assert (HY1 : 4 * n < 5 * i -> 4 * X + 8 <= 5 * Y) by (unfold X, Y; nia).
  assert (HY2 : 4 * X < 5 * Y -> 4 * n < 5 * i) by (unfold X, Y; nia).
  assert (HD : D = 105 \/ D = 106) by lia.
  destruct HD as [HD|HD]; rewrite HD in *.
  - replace (159 - 105 - d) with (1 + (53 - d)) by lia.
    rewrite Z.pow_add_r by lia. fold A.
    replace (i * (2 ^ 1 * A)) with (2 * Y) by (unfold Y; change (2 ^ 1) with 2; ring).
    change (2 ^ (105 - 53)) with 4503599627370496 in Hm.
    pose proof (Z.mul_div_le (X * Z.pos m08) 4503599627370496 ltac:(lia)) as Hq1.
    pose proof (Z.mul_succ_div_gt (X * Z.pos m08) 4503599627370496 ltac:(lia)) as Hq2.
    set (Q := X * Z.pos m08 / 4503599627370496) in *.
    unfold m08 in *. split; [intros Hlt; apply HY2 | intros Hlt; apply HY1 in Hlt]; lia.
  - replace (159 - 106 - d) with (53 - d) by lia. fold A. fold Y.
    change (2 ^ (106 - 53)) with 9007199254740992 in Hm.
    pose proof (Z.mul_div_le (X * Z.pos m08) 9007199254740992 ltac:(lia)) as Hq1.
    pose proof (Z.mul_succ_div_gt (X * Z.pos m08) 9007199254740992 ltac:(lia)) as Hq2.
    set (Q := X * Z.pos m08 / 9007199254740992) in *.
    unfold m08 in *. split; [intros Hlt; apply HY2 | intros Hlt; apply HY1 in Hlt]; lia.
Qed.

Lemma Zdigits2_le (n k : Z) : 0 <= k -> Z.abs n < 2 ^ k -> Zdigits2 n <= k.
Proof.
  intros Hk Hn. destruct n as [|p|p]; simpl in *; [lia| |];
    apply digits_le_of_lt; lia.
Qed.

(** An integer of less than 1023 bits converts to a float. *)
Lemma float_of_int_returns (n : Z) :
  - 2 ^ 1023 < n < 2 ^ 1023 ->
  float_of_int n = Return (binary_normalize prec emax n 0 false).
Proof.
  intros Hn. unfold float_of_int.
  destruct (Z.eq_dec n 0) as [->|Hne]; [reflexivity|].
  destruct (binary_normalize_pack n 0 Hne) as (m & Heq & Hm & _).
  pose proof (Zdigits2_le n 1023 ltac:(lia) ltac:(lia)) as Hd.
  pose proof (pack_finite_or_zero (n <? 0) m
                (fexp prec emax (Zdigits2 n + 0)) ltac:(lia)) as Hfin.
  rewrite <- Heq in Hfin.
  destruct (binary_normalize prec emax n 0 false); try reflexivity.
  exfalso. apply Hfin. rewrite fexp_eq. unfold emax, prec. lia.
Qed.

End Binary64.

(** * Properties of the text processor *)

Module TextFacts.
Import Text Binary64.

Section Lengths.

Context `{UnicodeData}.

Lemma length_sub_whitespace_from (b : bool) (s : str) :
  (length (sub_whitespace_from b s) <= length s)%nat.
Proof.
  revert b. induction s as [|c s IH]; intros b; simpl; [lia|].
  destruct (isspace c).
  - destruct b; simpl; specialize (IH true); lia.
  - simpl. specialize (IH false). lia.
Qed.

Lemma length_drop_while (p : codepoint -> bool) (s : str) :
  (length (drop_while p s) <= length s)%nat.
Proof.
  induction s as [|c s IH]; simpl; [lia|].
  destruct (p c); simpl; lia.
Qed.

Lemma length_strip (s : str) : (length (strip s) <= length s)%nat.
Proof.
  unfold strip. rewrite length_rev.
  etransitivity; [apply length_drop_while|].
  rewrite length_rev. apply length_drop_while.
Qed.

Lemma length_filter_le (p : codepoint -> bool) (s : str) :
  (length (List.filter p s) <= length s)%nat.
Proof.
  induction s as [|c s IH]; simpl; [lia|].
  destruct (p c); simpl; lia.
Qed.

Lemma length_clean_text_nfkc (text : str) :
  (length (clean_text text) <= length (normalize_NFKC text))%nat.
Proof.
  destruct text as [|c text]; [simpl; lia|].
  unfold clean_text.
  etransitivity; [apply length_filter_le|].
  etransitivity; [apply length_strip|].
  apply length_sub_whitespace_from.
Qed.

End Lengths.

Section Strip.

Lemma drop_while_all (p : codepoint -> bool) (s : str) :
  forallb p s = true -> drop_while p s = [].
Proof.
  induction s as [|c s IH]; simpl; [reflexivity|].
  destruct (p c); simpl; [exact IH | discriminate].
Qed.

Lemma drop_while_not_all (p : codepoint -> bool) (s : str) :
  forallb p s = false ->
  exists c rest, drop_while p s = c :: rest /\ p c = false.
Proof.
  induction s as [|c s IH]; simpl; [discriminate|].
  destruct (p c) eqn:Hc; simpl; [exact IH|].
  intros _. exists c, s. split; [reflexivity | exact Hc].
Qed.

Lemma drop_while_snoc_keeps (p : codepoint -> bool) (s : str) (c : codepoint) :
  p c = false -> drop_while p (s ++ [c]) <> [].
Proof.
  intros Hc. induction s as [|x s IH]; simpl.
  - rewrite Hc. discriminate.
  - destruct (p x); [exact IH | discriminate].
Qed.

(** [strip] leaves nothing exactly of the texts made of white space. *)
Lemma strip_nil_iff (s : str) : strip s = [] <-> forallb isspace s = true.
Proof.
  unfold strip. split.
  - intros Hs. destruct (forallb isspace s) eqn:Hall; [reflexivity|].
    destruct (drop_while_not_all _ _ Hall) as (c & rest & Heq & Hc).
    rewrite Heq in Hs. simpl in Hs.
    apply (f_equal (@rev codepoint)) in Hs. rewrite rev_involutive in Hs.
    simpl in Hs. exfalso. exact (drop_while_snoc_keeps _ _ _ Hc Hs).
  - intros Hall. rewrite (drop_while_all _ _ Hall). reflexivity.
Qed.

End Strip.

Section Validation.

Context `{UnicodeData}.
Variable self : TextProcessor.

Lemma len_zero_iff {A} (l : list A) : len l = 0 <-> l = [].
Proof.
  unfold len. destruct l; simpl; split; intros Hl; try reflexivity;
    try discriminate; lia.
Qed.

Lemma validate_post_blank (text : str) :
  forallb isspace text = true ->
  validate_post self text = (false, [err_empty]).
Proof.
  intros Hall. unfold validate_post.
  apply strip_nil_iff in Hall.
  rewrite (bool_decide_eq_true_2 (strip text = []) Hall).
  rewrite orb_true_r. reflexivity.
Qed.

Lemma validate_post_rules (text : str) :
  forallb isspace text = false ->
  validate_post self text =
    (bool_decide (Spec.rule_errors self text = []), Spec.rule_errors self text).
Proof.
  intros Hall. unfold validate_post, Spec.rule_errors.
  assert (Hne : text <> []) by (intros ->; discriminate).
  assert (Hstrip : strip text <> []).
  { intros Hs. apply strip_nil_iff in Hs. congruence. }
  rewrite (bool_decide_eq_false_2 _ Hne), (bool_decide_eq_false_2 _ Hstrip).
  simpl orb. cbv iota.
  destruct (max_length self <? len text), (len (strip text) <? 3),
    (_has_excessive_repetition text), (_is_spam_like text); reflexivity.
Qed.

Lemma validate_post_cases (text : str) :
  validate_post self text =
    if forallb isspace text then (false, [err_empty])
    else (bool_decide (Spec.rule_errors self text = []),
          Spec.rule_errors self text).
Proof.
  destruct (forallb isspace text) eqn:Hall.
  - apply validate_post_blank, Hall.
  - apply validate_post_rules, Hall.
Qed.

(** The messages of the four rules differ from one another. *)
Lemma rule_messages_distinct :
  NoDup [err_too_long self; err_too_short; err_repetition; err_spam].
Proof.
  unfold err_too_long, err_too_short, err_repetition, err_spam.
  repeat (apply NoDup_cons; split);
    rewrite ?elem_of_cons, ?elem_of_nil; simpl; try apply NoDup_nil;
    intuition discriminate.
Qed.

(** A rule's message is among the errors exactly when the rule applies. *)
Lemma rule_errors_elem (text : str) :
  (err_too_long self ∈ Spec.rule_errors self text
     <-> max_length self < len text)
  /\ (err_too_short ∈ Spec.rule_errors self text <-> len (strip text) < 3)
  /\ (err_repetition ∈ Spec.rule_errors self text
     <-> _has_excessive_repetition text = true)
  /\ (err_spam ∈ Spec.rule_errors self text <-> _is_spam_like text = true).
Proof.
  pose proof rule_messages_distinct as Hd.
  rewrite !NoDup_cons, !elem_of_cons, !elem_of_nil in Hd.
  unfold Spec.rule_errors.
  destruct (Z.ltb_spec (max_length self) (len text)),
    (Z.ltb_spec (len (strip text)) 3),
    (_has_excessive_repetition text), (_is_spam_like text);
    rewrite ?elem_of_app, ?elem_of_cons, ?elem_of_nil;
    intuition (try congruence; try lia).
Qed.

(** C8. On an empty text or one made of white space, [validate_post]
    returns false with the single error [err_empty], and no other rule
    adds an error; on every other text it returns the errors of all the
    rules that apply, and it answers true exactly when there is none. *)
Theorem validate_post_collects (text : str) :
  validate_post self text =
    (if forallb isspace text then (false, [err_empty])
     else (bool_decide (Spec.rule_errors self text = []),
           Spec.rule_errors self text))
  /\ (fst (validate_post self text) = true
      <-> snd (validate_post self text) = []).
Proof.
  split; [apply validate_post_cases|].
  rewrite validate_post_cases.
  destruct (forallb isspace text); simpl.
  - split; discriminate.
  - apply bool_decide_eq_true.
Qed.

End Validation.

Section Statistics.

Context `{UnicodeData}.

Lemma NoDup_list_of_set (l : list str) : NoDup (list_of_set l).
Proof. unfold list_of_set. apply NoDup_elements. Qed.

Lemma elem_of_list_of_set (l : list str) (x : str) :
  x ∈ list_of_set l <-> x ∈ l.
Proof. unfold list_of_set. rewrite elem_of_elements. apply elem_of_list_to_set. Qed.

(** C10. In the record of [get_text_stats], [character_count] and
    [cleaned_length] are both the length of the cleaned text, and each of
    [hashtag_count], [mention_count] and [url_count] is the length of the
    list of the same record, which has no duplicates. *)
Theorem get_text_stats_consistent (text : str) :
  let st := get_text_stats text in
  character_count st = cleaned_length st
  /\ cleaned_length st = len (clean_text text)
  /\ hashtag_count st = len (hashtags st) /\ NoDup (hashtags st)
  /\ mention_count st = len (mentions st) /\ NoDup (mentions st)
  /\ url_count st = len (urls st) /\ NoDup (urls st).
Proof.
  simpl. repeat split; apply NoDup_list_of_set.
Qed.

End Statistics.

Section Cleaning.

Context `{UnicodeData}.

(** C3 (amended). The cleaned text is never longer than the NFKC form of
    the text; it is no longer than the text itself whenever the
    normalisation does not lengthen the text. *)
Theorem clean_text_length (text : str) :
  len (clean_text text) <= len (normalize_NFKC text)
  /\ (len (normalize_NFKC text) <= len text ->
      len (clean_text text) <= len text).
Proof.
  pose proof (length_clean_text_nfkc text). unfold len. lia.
Qed.

End Cleaning.

Lemma clean_text_length_witness :
  len (clean_text (lit "a $ b")) <= len (lit "a $ b").
Proof.
  apply (clean_text_length (lit "a $ b")). vm_compute. discriminate.
Defined.

(** C3, as stated, fails: the ellipsis character U+2026 is one character
    and its cleaned text, three full stops, is longer. *)
Lemma clean_text_lengthens_ellipsis :
  clean_text [8230%N] = lit "..."
  /\ ~ len (clean_text [8230%N]) <= len ([8230%N] : str).
Proof. apply conj; [reflexivity | vm_compute; intros Hle; apply Hle; reflexivity]. Qed.

(** C2. The claim fails on the code: removing a character that stands
    between two spaces leaves both spaces, and one that starts the text
    leaves a leading space; a second cleaning then removes what the first
    one left. *)
Theorem clean_text_twice_differs :
  clean_text (lit "a $ b") = lit "a  b"
  /\ clean_text (clean_text (lit "a $ b")) = lit "a b"
  /\ clean_text (clean_text (lit "a $ b")) <> clean_text (lit "a $ b")
  /\ clean_text (lit "$ a") = lit " a"
  /\ clean_text (clean_text (lit "$ a")) = lit "a".
Proof.
  repeat apply conj; vm_compute;
    [reflexivity | reflexivity | discriminate | reflexivity | reflexivity].
Qed.

(** C6. The claim fails on the code at the boundary: 63 capital letters
    are exactly 70% of 90 characters, not more, and the post is reported
    as spam-like, because the product of 90 and 0.7 is rounded below 63. *)
Theorem spam_like_at_seventy_percent :
  len Samples.capitals_post = 90
  /\ len (List.filter is_upper_AZ Samples.capitals_post) = 63
  /\ fmul (float_of_len 90) c0_7 = S754_finite false 8866461766385663 (-47)
  /\ float_of_len 63 = S754_finite false 8866461766385664 (-47)
  /\ Spec.spam_like Samples.capitals_post = false
  /\ _is_spam_like Samples.capitals_post = true
  /\ validate_post text_processor Samples.capitals_post = (false, [err_spam])
  /\ clean_and_validate_post text_processor Samples.capitals_post
     = (Samples.capitals_post, false, [err_spam]).
Proof. repeat apply conj; vm_compute; reflexivity. Qed.

(** ** Truncation *)

Lemma len_app {A} (s t : list A) : len (s ++ t) = len s + len t.
Proof. unfold len. rewrite length_app. lia. Qed.

Lemma len_cons {A} (x : A) (s : list A) : len (x :: s) = 1 + len s.
Proof. unfold len. simpl length. lia. Qed.

Lemma len_nonneg {A} (s : list A) : 0 <= len s.
Proof. unfold len. lia. Qed.

Lemma rfind_from_app (c : codepoint) (s t : str) (i found : Z) :
  rfind_from c (s ++ t) i found
  = rfind_from c t (i + len s) (rfind_from c s i found).
Proof.
  revert i found. induction s as [|x s IH]; intros i found; simpl.
  - f_equal. unfold len. simpl. lia.
  - rewrite IH, len_cons. f_equal. lia.
Qed.

Lemma rfind_from_range (c : codepoint) (s : str) (i found : Z) :
  rfind_from c s i found = found
  \/ i <= rfind_from c s i found < i + len s.
Proof.
  revert i found. induction s as [|x s IH]; intros i found; simpl.
  - left. reflexivity.
  - rewrite len_cons. pose proof (len_nonneg s).
    destruct (IH (i + 1) (if (x =? c)%N then i else found)) as [Heq|Hin].
    + rewrite Heq. destruct (x =? c)%N; [right; lia | left; reflexivity].
    + right. lia.
Qed.

Lemma rfind_range (c : codepoint) (s : str) : -1 <= rfind c s < len s.
Proof.
  unfold rfind. pose proof (len_nonneg s).
  destruct (rfind_from_range c s 0 (-1)) as [->|Hin]; lia.
Qed.

(** The three full stops contain no space. *)
Lemma rfind_with_dots (s : str) :
  rfind 32%N (s ++ lit "...") = rfind 32%N s.
Proof. unfold rfind. rewrite rfind_from_app. reflexivity. Qed.

Lemma slice_to_take {A} (s : list A) (k : Z) :
  0 <= k <= len s -> slice_to s k = take (Z.to_nat k) s.
Proof.
  intros Hk. unfold slice_to.
  destruct (Z.ltb_spec k 0); [lia|]. f_equal. lia.
Qed.

Lemma slice_to_negative {A} (s : list A) (k : Z) :
  k < 0 -> slice_to s k = take (length s - Z.to_nat (- k)) s.
Proof.
  intros Hk. unfold slice_to, len.
  destruct (Z.ltb_spec k 0); [|lia]. f_equal. lia.
Qed.

Section Truncation.

Variable self : TextProcessor.

(** C7 (amended). For a maximal length from 3 up to 2^50, [truncate_text]
    returns the text unchanged when it fits; otherwise it returns the
    first [max_length - 3] characters and three full stops, except that
    when the last space of that cut has an index strictly above 80% of
    [max_length], the cut ends just before that space. *)
Theorem truncate_text_cuts (text : str) (max_length_arg : option Z) :
  let n := match max_length_arg with
           | None => max_length self
           | Some n => n
           end in
  3 <= n < 2 ^ 50 ->
  truncate_text self text max_length_arg =
    Return
      (if len text <=? n then text
       else
         let cut := take (Z.to_nat (n - 3)) text in
         let i := rfind 32%N cut in
         if 4 * n <? 5 * i then take (Z.to_nat i) cut ++ lit "..."
         else cut ++ lit "...").
Proof.
  intros n Hn. unfold truncate_text. fold n.
  destruct (Z.leb_spec (len text) n) as [Hfit|Hlong]; [reflexivity|].
  rewrite (slice_to_take text (n - 3)) by lia.
  set (cut := take (Z.to_nat (n - 3)) text).
  rewrite rfind_with_dots.
  assert (H50 : 2 ^ 50 < 2 ^ 1023) by (apply Z.pow_lt_mono_r; lia).
  rewrite float_of_int_returns by lia.
  unfold mbind, Exc_bind. rewrite exceeds_four_fifths by lia.
  cbv zeta.
  destruct (Z.ltb_spec (4 * n) (5 * rfind 32%N cut)) as [Hgt|Hle]; [|reflexivity].
  pose proof (rfind_range 32%N cut) as Hr.
  rewrite slice_to_take by (rewrite len_app; pose proof (len_nonneg (lit "...")); lia).
  rewrite take_app_le by (unfold len in Hr; lia).
  reflexivity.
Qed.

(** C9 (amended). [truncate_text] does not check the sign of
    [max_length]: for a negative one above [-2^1023] it returns normally,
    the text without its last [3 - max_length] characters followed by
    three full stops, or that string cut again at the index [rfind] gives
    and followed by three full stops. *)
Theorem truncate_text_negative (text : str) (n : Z) :
  n < 0 -> - 2 ^ 1023 < n ->
  exists s,
    truncate_text self text (Some n) = Return s
    /\ let truncated :=
         take (length text - Z.to_nat (3 - n)) text ++ lit "..." in
       s = truncated
       \/ s = slice_to truncated (rfind 32%N truncated) ++ lit "...".
Proof.
  intros Hneg Hbig. unfold truncate_text.
  pose proof (len_nonneg text).
  destruct (Z.leb_spec (len text) n) as [Hfit|Hlong]; [lia|].
  assert (H0 : 0 < 2 ^ 1023) by (apply Z.pow_pos_nonneg; lia).
  rewrite float_of_int_returns by lia.
  rewrite (slice_to_negative text (n - 3)) by lia.
  replace (- (n - 3)) with (3 - n) by lia.
  unfold mbind, Exc_bind. cbv zeta.
  destruct (int_gt_float _ _); eexists; (split; [reflexivity|]); [right | left];
    reflexivity.
Qed.

End Truncation.

Lemma truncate_text_cuts_witness :
  3 <= 7 < 2 ^ 50
  /\ truncate_text text_processor (lit "a b c d e f") (Some 7)
     = Return (lit "a b ...").
Proof.
  split; [lia|].
  apply (truncate_text_cuts text_processor (lit "a b c d e f") (Some 7)). lia.
Defined.

Lemma truncate_text_negative_witness :
  exists s,
    truncate_text text_processor (lit "hello world") (Some (-1)) = Return s
    /\ let truncated :=
         take (length (lit "hello world") - Z.to_nat (3 - -1)) (lit "hello world")
         ++ lit "..." in
       s = truncated
       \/ s = slice_to truncated (rfind 32%N truncated) ++ lit "...".
Proof.
  apply (truncate_text_negative text_processor (lit "hello world") (-1));
    reflexivity.
Defined.

(** C7, as stated, fails: a space at index 20, exactly 80% of a maximal
    length of 25, does not shorten the cut; and below a maximal length of
    3 the slice counts from the end of the text. *)
Lemma truncate_keeps_space_at_four_fifths :
  rfind 32%N (take 22 Samples.long_word_post) = 20
  /\ truncate_text text_processor Samples.long_word_post (Some 25)
     = Return (lit "aaaaaaaaaaaaaaaaaaaa b...")
  /\ Spec.truncate Samples.long_word_post 25 = lit "aaaaaaaaaaaaaaaaaaaa..."
  /\ truncate_text text_processor Samples.long_word_post (Some 25)
     <> Return (Spec.truncate Samples.long_word_post 25)
  /\ truncate_text text_processor (lit "abcdef") (Some 2)
     = Return (lit "abcde...")
  /\ Spec.truncate (lit "abcdef") 2 = lit "...".
Proof.
  repeat apply conj; vm_compute;
    [reflexivity | reflexivity | reflexivity | discriminate | reflexivity
    | reflexivity].
Qed.

(** C9, as stated, fails: with a maximal length of -1 the call returns a
    truncated string. *)
Lemma truncate_accepts_negative_length :
  truncate_text text_processor (lit "hello world") (Some (-1))
    = Return (lit "hello...")
  /\ ~ (exists e, truncate_text text_processor (lit "hello world") (Some (-1))
                 = Raise e).
Proof.
  split; [vm_compute; reflexivity|]. intros [e He]. vm_compute in He. discriminate.
Qed.

End TextFacts.

(** * Properties of the sentiment scorer *)

Module SentimentFacts.
Import Sentiment Binary64.

Lemma one_minus_tenth : fsub c1_0 c0_1 = c0_9.
Proof. vm_compute. reflexivity. Qed.

Lemma minus_tenth_plus_one : fadd (fneg c0_1) c1_0 = c0_9.
Proof. vm_compute. reflexivity. Qed.

Lemma fdiv_nine_tenths (x : float) :
  fdiv x c0_9 = Return (SFdiv prec emax x c0_9).
Proof. reflexivity. Qed.

(** [_classify_sentiment] never raises, and computes the class and the
    confidence of the formulas. *)
Lemma classify_sentiment_eq (score : float) :
  _classify_sentiment score
  = Return (Spec.classify score, Spec.confidence (Spec.classify score) score).
Proof.
  unfold _classify_sentiment, Spec.classify, Spec.confidence.
  rewrite one_minus_tenth, minus_tenth_plus_one, !fdiv_nine_tenths.
  destruct (fgt score c0_1); [reflexivity|].
  destruct (flt score (fneg c0_1)); reflexivity.
Qed.

Lemma c0_1_bounded : bounded prec emax 7205759403792794 (-56) = true.
Proof. vm_compute. reflexivity. Qed.

Lemma c1_0_bounded : bounded prec emax 4503599627370496 (-52) = true.
Proof. vm_compute. reflexivity. Qed.

(** The confidence of a binary64 score that is a number lies between 0
    and 1. *)
Lemma confidence_range (score : float) :
  valid_binary prec emax score = true -> not_nan score ->
  Spec.between c0_0 c1_0 (Spec.confidence (Spec.classify score) score) = true.
Proof.
  intros Hv Hn. unfold Spec.classify, Spec.confidence.
  destruct (fgt score c0_1) eqn:Hpos.
  - apply py_min_one_range. unfold c0_9. apply SFdiv_not_negative.
    apply sub_threshold_not_negative; [exact Hv | exact c0_1_bounded | exact Hpos].
  - destruct (flt score (fneg c0_1)) eqn:Hneg.
    + apply py_min_one_range. unfold c0_9. apply SFdiv_not_negative.
      apply threshold_sub_not_negative;
        [exact Hv | exact c0_1_bounded | exact Hneg].
    + apply (one_minus_abs_range score 7205759403792794 (-56));
        [exact Hv | exact Hn | lia | exact Hpos | exact Hneg].
Qed.

(** The combined score lies between -1 and 1 and is a number. *)
Lemma combine_between (p : float) (vs : vader_scores) :
  Spec.between (fneg c1_0) c1_0 (_combine_sentiment_scores p vs) = true.
Proof. unfold _combine_sentiment_scores. apply clamp_between. Qed.

Lemma combine_not_nan (p : float) (vs : vader_scores) :
  not_nan (_combine_sentiment_scores p vs).
Proof. unfold _combine_sentiment_scores. apply clamp_not_nan. Qed.

Lemma combine_valid (p : float) (vs : vader_scores) :
  valid_binary prec emax p = true ->
  valid_binary prec emax (compound vs) = true ->
  valid_binary prec emax (_combine_sentiment_scores p vs) = true.
Proof.
  intros Hp Hc. unfold _combine_sentiment_scores.
  apply clamp_valid; [|exact c1_0_bounded].
  apply SFadd_valid; apply SFmul_valid; try assumption; reflexivity.
Qed.

Lemma is_finite_cases (x : float) :
  Spec.is_finite x = true ->
  finite_or_zero x /\ valid_binary prec emax x = true.
Proof. destruct x; simpl; intros Hx; try discriminate; auto. Qed.

Lemma fmul_finite_not_nan (a p : float) :
  finite_or_zero a -> finite_or_zero p -> not_nan (fmul a p).
Proof.
  intros Ha Hp. destruct a as [sa|sa| |sa ma ea], p as [sp|sp| |sp mp ep];
    try contradiction; try exact I.
  apply (signed_not_nan (xorb sa sp)). unfold fmul, SFmul.
  apply binary_round_aux_signed. lia.
Qed.

(** Three tenths of a finite number is finite. *)
Lemma fmul_three_tenths_finite (p : float) :
  Spec.is_finite p = true -> finite_or_zero (fmul c0_3 p).
Proof.
  intros Hp. destruct p as [sp|sp| |sp mp ep]; try discriminate; [exact I|].
  simpl in Hp. unfold fmul, c0_3, SFmul.
  pose proof (bounded_lt _ _ Hp) as Hlt.
  apply bounded_cases in Hp.
  pose proof (digits2_pos_mul 5404319552844595 mp) as Hd.
  change (Z.pos (digits2_pos 5404319552844595)) with 53 in Hd.
  assert (Hprod : Z.pos (5404319552844595 * mp) < 2 ^ 106).
  { rewrite Pos2Z.inj_mul. change (2 ^ 106) with (2 ^ 53 * 2 ^ 53).
    apply Z.mul_lt_mono_nonneg; lia. }
  apply digits_le_of_lt in Hprod; [|lia].
  destruct (binary_round_aux_exact (xorb false sp) (5404319552844595 * mp)
              (-54 + ep)) as (m & -> & Hm & _ & Hle & _).
  { rewrite fexp_eq. lia. }
  apply pack_finite_or_zero.
  - assert (0 <= Z.pos (5404319552844595 * mp) /
        2 ^ (fexp prec emax (Z.pos (digits2_pos (5404319552844595 * mp)) + (-54 + ep)) - (-54 + ep))); [|lia].
    apply Z.div_pos; [lia|]. apply Z.pow_pos_nonneg; [lia|]. rewrite fexp_eq. lia.
  - rewrite fexp_eq. unfold emax, prec. lia.
Qed.

Lemma fadd_not_nan (a b : float) :
  finite_or_zero a -> not_nan b -> not_nan (fadd a b).
Proof.
  intros Ha Hb. destruct a as [sa|sa| |sa ma ea], b as [sb|sb| |sb mb eb];
    try contradiction; try exact I.
  - destruct sa, sb; exact I.
  - unfold fadd, SFadd. apply binary_normalize_not_nan.
Qed.

Lemma weighted_sum_not_nan (p c : float) :
  Spec.is_finite p = true -> Spec.is_finite c = true ->
  not_nan (fadd (fmul c0_3 p) (fmul c0_7 c)).
Proof.
  intros Hp Hc. apply fadd_not_nan.
  - apply fmul_three_tenths_finite, Hp.
  - apply fmul_finite_not_nan; [exact I | apply is_finite_cases, Hc].
Qed.

Section Analyzer.

Variable TextBlob : str -> Exc textblob_details.
Variable polarity_scores : str -> Exc vader_scores.

Lemma analyze_success (text : str) (blob : textblob_details) (vs : vader_scores) :
  TextBlob text = Return blob -> polarity_scores text = Return vs ->
  analyze_sentiment TextBlob polarity_scores text =
    let combined := _combine_sentiment_scores (polarity blob) vs in
    Return
      {| sentiment := Spec.classify combined;
         confidence := Spec.confidence (Spec.classify combined) combined;
         score := combined;
         explanation :=
           _generate_sentiment_explanation (Spec.classify combined) combined
             (subjectivity blob);
         details :=
           {| textblob := {| polarity := polarity blob;
                             subjectivity := subjectivity blob |};
              vader := vs;
              combined := combined |} |}.
Proof.
  intros Hb Hs. unfold analyze_sentiment, analyze_sentiment_body.
  rewrite Hb, Hs. unfold mbind, Exc_bind at 1 2.
  rewrite classify_sentiment_eq. reflexivity.
Qed.

Lemma analyze_failure (text : str) :
  (exists e, TextBlob text = Raise e) \/ (exists e, polarity_scores text = Raise e) ->
  analyze_sentiment TextBlob polarity_scores text = Return _get_fallback_sentiment.
Proof.
  intros Hfail. unfold analyze_sentiment, analyze_sentiment_body.
  destruct (TextBlob text) as [blob|e1] eqn:Hb.
  - destruct Hfail as [[e He]|[e He]]; [discriminate|].
    rewrite He. reflexivity.
  - reflexivity.
Qed.


(** C1. When both signals succeed with finite scores, the score of the
    record is the weighted sum 0.3 * polarity + 0.7 * compound clamped to
    the interval from -1 to 1, and the class is positive above 0.1,
    negative below -0.1 and neutral otherwise. *)
Theorem analyze_combines_and_classifies (text : str)
    (blob : textblob_details) (vs : vader_scores) :
  TextBlob text = Return blob -> polarity_scores text = Return vs ->
  Spec.is_finite (polarity blob) = true ->
  Spec.is_finite (compound vs) = true ->
  exists r,
    analyze_sentiment TextBlob polarity_scores text = Return r
    /\ score r =
         Spec.clamp (fadd (fmul c0_3 (polarity blob)) (fmul c0_7 (compound vs)))
           (fneg c1_0) c1_0
    /\ sentiment r = Spec.classify (score r).
Proof.
  intros Hb Hs Hp Hc. eexists. split; [apply (analyze_success _ _ _ Hb Hs)|].
  cbv zeta. cbn [score sentiment]. split; [|reflexivity].
  unfold _combine_sentiment_scores. apply clamp_code_spec.
  apply weighted_sum_not_nan; assumption.
Qed.

(** C5. Every call returns a record whose score lies between -1 and 1 and
    whose confidence lies between 0 and 1, the scores of the signals
    being binary64 numbers; when both signals succeed the confidence is
    min(1, (score - 0.1) / 0.9) for a positive class,
    min(1, (-0.1 - score) / 0.9) for a negative one and 1 - abs(score)
    for a neutral one. *)
Theorem analyze_confidence_in_range (text : str) :
  (forall blob, TextBlob text = Return blob ->
     Spec.is_binary64 (polarity blob) = true) ->
  (forall vs, polarity_scores text = Return vs ->
     Spec.is_binary64 (compound vs) = true) ->
  exists r,
    analyze_sentiment TextBlob polarity_scores text = Return r
    /\ Spec.between (fneg c1_0) c1_0 (score r) = true
    /\ Spec.between c0_0 c1_0 (confidence r) = true
    /\ ((exists blob vs,
           TextBlob text = Return blob /\ polarity_scores text = Return vs) ->
        confidence r = Spec.confidence (sentiment r) (score r)).
Proof.
  intros Hp Hc.
  destruct (TextBlob text) as [blob|e1] eqn:Hb;
    [destruct (polarity_scores text) as [vs|e2] eqn:Hs|].
  - eexists. split; [apply (analyze_success _ _ _ Hb Hs)|].
    cbv zeta. cbn [score sentiment confidence]. repeat apply conj.
    + apply combine_between.
    + apply confidence_range; [|apply combine_not_nan].
      apply combine_valid; [apply Hp | apply Hc]; reflexivity.
    + reflexivity.
  - exists _get_fallback_sentiment. split; [|repeat apply conj].
    + apply analyze_failure. right. exists e2. exact Hs.
    + vm_compute. reflexivity.
    + vm_compute. reflexivity.
    + intros (b & v & _ & Hv). discriminate.
  - exists _get_fallback_sentiment. split; [|repeat apply conj].
    + apply analyze_failure. left. exists e1. exact Hb.
    + vm_compute. reflexivity.
    + vm_compute. reflexivity.
    + intros (b & v & Hv & _). discriminate.
Qed.

(** C4 (amended). When either signal raises, [analyze_sentiment] does not
    raise: it returns the fallback record, neutral with confidence 0.5
    and score 0.0, whose details are polarity 0.0, subjectivity 0.5,
    compound, pos and neg 0.0, neu 1.0 and combined 0.0. *)
Theorem analyze_falls_back (text : str) :
  (exists e, TextBlob text = Raise e) \/ (exists e, polarity_scores text = Raise e) ->
  exists r,
    analyze_sentiment TextBlob polarity_scores text = Return r
    /\ sentiment r = neutral /\ confidence r = c0_5 /\ score r = c0_0
    /\ explanation r = "Sentiment analysis was unable to process this text."%string
    /\ details r =
         {| textblob := {| polarity := c0_0; subjectivity := c0_5 |};
            vader := {| neg := c0_0; neu := c1_0; pos := c0_0;
                        compound := c0_0 |};
            combined := c0_0 |}.
Proof.
  intros Hfail. exists _get_fallback_sentiment.
  split; [apply analyze_failure, Hfail|]. repeat apply conj; reflexivity.
Qed.

End Analyzer.

Lemma analyze_combines_and_classifies_witness :
  exists r,
    analyze_sentiment Samples.steady_textblob Samples.steady_vader (lit "fine")
      = Return r
    /\ score r = Spec.clamp (fadd (fmul c0_3 c0_5) (fmul c0_7 c0_8)) (fneg c1_0) c1_0
    /\ sentiment r = Spec.classify (score r).
Proof.
  apply (analyze_combines_and_classifies Samples.steady_textblob
           Samples.steady_vader (lit "fine")
           {| polarity := c0_5; subjectivity := c0_5 |}
           {| neg := c0_0; neu := c0_2; pos := c0_8; compound := c0_8 |});
    reflexivity.
Defined.

Lemma analyze_confidence_in_range_witness :
  exists r,
    analyze_sentiment Samples.steady_textblob Samples.steady_vader (lit "fine")
      = Return r
    /\ Spec.between (fneg c1_0) c1_0 (score r) = true
    /\ Spec.between c0_0 c1_0 (confidence r) = true
    /\ ((exists blob vs,
           Samples.steady_textblob (lit "fine") = Return blob
           /\ Samples.steady_vader (lit "fine") = Return vs) ->
        confidence r = Spec.confidence (sentiment r) (score r)).
Proof.
  apply (analyze_confidence_in_range Samples.steady_textblob
           Samples.steady_vader (lit "fine")).
  - intros blob Hb. injection Hb as <-. reflexivity.
  - intros vs Hs. injection Hs as <-. reflexivity.
Defined.

Lemma analyze_falls_back_witness :
  exists r,
    analyze_sentiment Samples.failing_model Samples.steady_vader (lit "test")
      = Return r
    /\ sentiment r = neutral /\ confidence r = c0_5 /\ score r = c0_0
    /\ explanation r = "Sentiment analysis was unable to process this text."%string
    /\ details r =
         {| textblob := {| polarity := c0_0; subjectivity := c0_5 |};
            vader := {| neg := c0_0; neu := c1_0; pos := c0_0;
                        compound := c0_0 |};
            combined := c0_0 |}.
Proof.
  apply (analyze_falls_back Samples.failing_model Samples.steady_vader
           (lit "test")).
  left. eexists. reflexivity.
Defined.

(** C4, as stated, fails: the details of the fallback record are not all
    zero, its subjectivity is 0.5 and its neu is 1.0. *)
Lemma fallback_details_not_zero :
  exists r,
    analyze_sentiment Samples.failing_model Samples.steady_vader (lit "test")
      = Return r
    /\ subjectivity (textblob (details r)) = c0_5
    /\ neu (vader (details r)) = c1_0
    /\ ~ Spec.zero_valued_details (details r).
Proof.
  exists _get_fallback_sentiment. repeat apply conj; try reflexivity.
  intros (_ & Hsub & _). vm_compute in Hsub. discriminate.
Qed.

End SentimentFacts.

(** * Further properties of binary64 arithmetic *)

Module FloatFacts.
Import Binary64.

(** ** Negation, comparison and subtraction *)

Lemma SFltb_opp_r (x : float) (sy : bool) (my : positive) (ey : Z) :
  SFltb (S754_finite sy my ey) (SFopp x)
  = SFltb x (SFopp (S754_finite sy my ey)).
Proof.
  destruct x as [sx|sx| |sx mx ex]; [destruct sx, sy; reflexivity
    | destruct sx, sy; reflexivity | reflexivity |].
  unfold SFltb, SFopp.
  destruct sx, sy; try reflexivity; cbn [negb].
  - rewrite SFcompare_pos_pos, SFcompare_neg_neg, (Z.compare_antisym ex ey),
      (Pos.compare_antisym mx my).
    destruct (ex ?= ey); cbn [CompOpp]; try reflexivity;
      destruct (mx ?= my)%positive; reflexivity.
  - rewrite SFcompare_pos_pos, SFcompare_neg_neg, (Z.compare_antisym ex ey),
      (Pos.compare_antisym mx my).
    destruct (ex ?= ey); cbn [CompOpp]; try reflexivity;
      destruct (mx ?= my)%positive; reflexivity.
Qed.

Lemma SFltb_opp_opp (x : float) (sy : bool) (my : positive) (ey : Z) :
  SFltb (SFopp x) (SFopp (S754_finite sy my ey))
  = SFltb (S754_finite sy my ey) x.
Proof.
  destruct x as [sx|sx| |sx mx ex]; [destruct sx, sy; reflexivity
    | destruct sx, sy; reflexivity | reflexivity |].
  unfold SFltb, SFopp.
  destruct sx, sy; try reflexivity; cbn [negb].
  - rewrite SFcompare_pos_pos, SFcompare_neg_neg, (Z.compare_antisym ex ey),
      (Pos.compare_antisym mx my).
    destruct (ex ?= ey); cbn [CompOpp]; try reflexivity;
      destruct (mx ?= my)%positive; reflexivity.
  - rewrite SFcompare_pos_pos, SFcompare_neg_neg, (Z.compare_antisym ex ey),
      (Pos.compare_antisym mx my).
    destruct (ex ?= ey); cbn [CompOpp]; try reflexivity;
      destruct (mx ?= my)%positive; reflexivity.
Qed.

Lemma SFltb_above_not_below (x : float) (my : positive) (ey : Z) :
  SFltb (S754_finite false my ey) x = true ->
  SFltb x (S754_finite true my ey) = false.
Proof.
  destruct x as [sx|sx| |sx mx ex]; try discriminate.
  - destruct sx; [discriminate | reflexivity].
  - destruct sx; [discriminate | reflexivity].
Qed.

Lemma cond_Zopp_negb (s : bool) (m : Z) : cond_Zopp (negb s) m = - cond_Zopp s m.
Proof. destruct s; simpl; lia. Qed.

Lemma SFsub_opp_swap (x : float) (sy : bool) (my : positive) (ey : Z) :
  SFsub prec emax (SFopp x) (S754_finite sy my ey)
  = SFsub prec emax (SFopp (S754_finite sy my ey)) x.
Proof.
  destruct x as [sx|sx| |sx mx ex]; try reflexivity.
  unfold SFopp, SFsub. cbv zeta.
  replace (IntDef.Z.min ey ex) with (IntDef.Z.min ex ey) by apply Z.min_comm.
  f_equal. rewrite !cond_Zopp_negb. lia.
Qed.

Lemma SFsub_opp_opp (x : float) (sy : bool) (my : positive) (ey : Z) :
  SFsub prec emax (SFopp (S754_finite sy my ey)) (SFopp x)
  = SFsub prec emax x (S754_finite sy my ey).
Proof.
  destruct x as [sx|sx| |sx mx ex]; try reflexivity.
  - destruct sx; reflexivity.
  - unfold SFopp, SFsub. cbv zeta.
    replace (IntDef.Z.min ey ex) with (IntDef.Z.min ex ey) by apply Z.min_comm.
    f_equal. rewrite !cond_Zopp_negb. lia.
Qed.

Lemma fabs_fneg (x : float) : fabs (fneg x) = fabs x.
Proof. destruct x; reflexivity. Qed.


(** ** Products with 0.1 and 0.7 *)

(** The product with 0.1 is rounded so that an integer exceeds it exactly
    when it exceeds one tenth. *)
Lemma exceeds_tenth (n i : Z) :
  0 < n < 2 ^ 50 ->
  int_gt_float i (fmul (binary_normalize prec emax n 0 false) c0_1)
  = (n <? 10 * i).
Proof.
  intros Hn.
  assert (Hn50 : 2 ^ 50 < 2 ^ 53) by reflexivity.
  destruct (float_of_small_int n ltac:(lia)) as (pm & -> & Hpm & Hrange & Hd).
  assert (Hd50 : Zdigits2 n <= 50).
  { destruct n as [|p|p]; try lia. simpl. apply digits_le_of_lt; lia. }
  set (d := Zdigits2 n) in *.
  unfold fmul, c0_1, SFmul. change (xorb false false) with false.
  set (m01 := 7205759403792794%positive).
  pose proof (digits2_pos_mul pm m01) as Hmul.
  change (Z.pos (digits2_pos m01)) with 53 in Hmul.
  rewrite (digits2_pos_unique pm 53) in Hmul by (simpl; lia).
  assert (Hprod : Z.pos (pm * m01) < 2 ^ 106).
  { rewrite Pos2Z.inj_mul. change (2 ^ 106) with (2 ^ 53 * 2 ^ 53).
    apply Z.mul_lt_mono_nonneg; unfold m01; lia. }
  apply digits_le_of_lt in Hprod; [|lia].
  set (D := Z.pos (digits2_pos (pm * m01))) in *.
  destruct (binary_round_aux_exact false (pm * m01) (d - 53 + -56))
    as (m & -> & Hm & _ & Hle & Hnorm).
  { rewrite fexp_eq. fold D. lia. }
  fold D in Hm, Hnorm. rewrite fexp_eq in *. fold D.
  replace (Z.max (D + (d - 53 + -56) - 53) (-1074)) with (D + d - 162) in * by lia.
  specialize (Hnorm ltac:(lia)).
  rewrite int_gt_float_pack by lia.
  replace (D + d - 162 - (d - 53 + -56)) with (D - 53) in Hm by lia.
  replace (- (D + d - 162)) with (162 - D - d) by lia.
  set (A := 2 ^ (53 - d)) in *.
  assert (HA : 8 <= A).
  { change 8 with (2 ^ 3). apply Z.pow_le_mono_r; lia. }
  rewrite Pos2Z.inj_mul, Hpm in Hm.
  set (X := n * A) in *.
  assert (HX : 0 < X < 2 ^ 53) by lia.
  apply ltb_iff_eq.
  set (Y := i * A).
  assert (HY1 : n < 10 * i -> X + 8 <= 10 * Y) by (unfold X, Y; nia).
  assert (HY2 : X < 10 * Y -> n < 10 * i) by (unfold X, Y; nia).
  assert (HD : D = 105 \/ D = 106) by lia.
  destruct HD as [HD|HD]; rewrite HD in *.
  - replace (162 - 105 - d) with (4 + (53 - d)) by lia.
    rewrite Z.pow_add_r by lia. fold A.
    replace (i * (2 ^ 4 * A)) with (16 * Y) by (unfold Y; change (2 ^ 4) with 16; ring).
    change (2 ^ (105 - 53)) with 4503599627370496 in Hm.
    pose proof (Z.mul_div_le (X * Z.pos m01) 4503599627370496 ltac:(lia)) as Hq1.
    pose proof (Z.mul_succ_div_gt (X * Z.pos m01) 4503599627370496 ltac:(lia)) as Hq2.
    set (Q := X * Z.pos m01 / 4503599627370496) in *.
    unfold m01 in *. split; [intros Hlt; apply HY2 | intros Hlt; apply HY1 in Hlt]; lia.
  - replace (162 - 106 - d) with (3 + (53 - d)) by lia.
    rewrite Z.pow_add_r by lia. fold A.
    replace (i * (2 ^ 3 * A)) with (8 * Y) by (unfold Y; change (2 ^ 3) with 8; ring).
    change (2 ^ (106 - 53)) with 9007199254740992 in Hm.
    pose proof (Z.mul_div_le (X * Z.pos m01) 9007199254740992 ltac:(lia)) as Hq1.
    pose proof (Z.mul_succ_div_gt (X * Z.pos m01) 9007199254740992 ltac:(lia)) as Hq2.
    set (Q := X * Z.pos m01 / 9007199254740992) in *.
    unfold m01 in *. split; [intros Hlt; apply HY2 | intros Hlt; apply HY1 in Hlt]; lia.
Qed.

(** The product with 0.7 is rounded so that an integer above seven tenths
    exceeds it, and an integer that exceeds it is at least seven tenths. *)
Lemma exceeds_seven_tenths (n i : Z) :
  0 < n < 2 ^ 50 ->
  let gt := int_gt_float i (fmul (binary_normalize prec emax n 0 false) c0_7) in
  (7 * n < 10 * i -> gt = true) /\ (gt = true -> 7 * n <= 10 * i).
Proof.
  intros Hn.
  assert (Hn50 : 2 ^ 50 < 2 ^ 53) by reflexivity.
  destruct (float_of_small_int n ltac:(lia)) as (pm & -> & Hpm & Hrange & Hd).
  assert (Hd50 : Zdigits2 n <= 50).
  { destruct n as [|p|p]; try lia. simpl. apply digits_le_of_lt; lia. }
  set (d := Zdigits2 n) in *.
  unfold fmul, c0_7, SFmul. change (xorb false false) with false.
  set (m07 := 6305039478318694%positive).
  pose proof (digits2_pos_mul pm m07) as Hmul.
  change (Z.pos (digits2_pos m07)) with 53 in Hmul.
  rewrite (digits2_pos_unique pm 53) in Hmul by (simpl; lia).
  assert (Hprod : Z.pos (pm * m07) < 2 ^ 106).
  { rewrite Pos2Z.inj_mul. change (2 ^ 106) with (2 ^ 53 * 2 ^ 53).
    apply Z.mul_lt_mono_nonneg; unfold m07; lia. }
  apply digits_le_of_lt in Hprod; [|lia].
  set (D := Z.pos (digits2_pos (pm * m07))) in *.
  destruct (binary_round_aux_exact false (pm * m07) (d - 53 + -53))
    as (m & -> & Hm & _ & Hle & Hnorm).
  { rewrite fexp_eq. fold D. lia. }
  fold D in Hm, Hnorm. rewrite fexp_eq in *. fold D.
  replace (Z.max (D + (d - 53 + -53) - 53) (-1074)) with (D + d - 159) in * by lia.
  specialize (Hnorm ltac:(lia)).
  cbv zeta. rewrite int_gt_float_pack by lia.
  replace (D + d - 159 - (d - 53 + -53)) with (D - 53) in Hm by lia.
  replace (- (D + d - 159)) with (159 - D - d) by lia.
  set (A := 2 ^ (53 - d)) in *.
  assert (HA : 8 <= A).
  { change 8 with (2 ^ 3). apply Z.pow_le_mono_r; lia. }
  rewrite Pos2Z.inj_mul, Hpm in Hm.
  set (X := n * A) in *.
  assert (HX : 0 < X < 2 ^ 53) by lia.
  set (Y := i * A).
  assert (HY1 : 7 * n < 10 * i -> 7 * X + 8 <= 10 * Y) by (unfold X, Y; nia).
  assert (HY2 : 7 * X < 10 * Y + 8 -> 7 * n <= 10 * i) by (unfold X, Y; nia).
  assert (HD : D = 105 \/ D = 106) by lia.
  destruct HD as [HD|HD]; rewrite HD in *.
  - replace (159 - 105 - d) with (1 + (53 - d)) by lia.
    rewrite Z.pow_add_r by lia. fold A.
    replace (i * (2 ^ 1 * A)) with (2 * Y) by (unfold Y; change (2 ^ 1) with 2; ring).
    change (2 ^ (105 - 53)) with 4503599627370496 in Hm.
    pose proof (Z.mul_div_le (X * Z.pos m07) 4503599627370496 ltac:(lia)) as Hq1.
    pose proof (Z.mul_succ_div_gt (X * Z.pos m07) 4503599627370496 ltac:(lia)) as Hq2.
    set (Q := X * Z.pos m07 / 4503599627370496) in *.
    unfold m07 in *. split.
    + intros Hlt. apply HY1 in Hlt. apply Z.ltb_lt. lia.
    + intros Hlt. apply Z.ltb_lt in Hlt. apply HY2. lia.
  - replace (159 - 106 - d) with (53 - d) by lia. fold A. fold Y.
    change (2 ^ (106 - 53)) with 9007199254740992 in Hm.
    pose proof (Z.mul_div_le (X * Z.pos m07) 9007199254740992 ltac:(lia)) as Hq1.
    pose proof (Z.mul_succ_div_gt (X * Z.pos m07) 9007199254740992 ltac:(lia)) as Hq2.
    set (Q := X * Z.pos m07 / 9007199254740992) in *.
    unfold m07 in *. split.
    + intros Hlt. apply HY1 in Hlt. apply Z.ltb_lt. lia.
    + intros Hlt. apply Z.ltb_lt in Hlt. apply HY2. lia.
Qed.

End FloatFacts.

(** * Further properties of the text processor *)

Module TextShape.
Import Text Binary64 TextFacts FloatFacts Notions.

(** ** Cleaning *)

Section CleanShape.
Context `{UnicodeData}.

Lemma Forall_filter_bool (p : codepoint -> bool) (s : str) :
  Forall (fun c => p c = true) (List.filter p s).
Proof.
  induction s as [|c s IH]; simpl; [constructor|].
  destruct (p c) eqn:Hc; [constructor|]; assumption.
Qed.

Lemma Forall_filter_keeps (P : codepoint -> Prop) (p : codepoint -> bool) (s : str) :
  Forall P s -> Forall P (List.filter p s).
Proof.
  induction 1 as [|c s Hc Hs IH]; simpl; [constructor|].
  destruct (p c); [constructor|]; assumption.
Qed.

Lemma Forall_drop_while (P : codepoint -> Prop) (p : codepoint -> bool) (s : str) :
  Forall P s -> Forall P (drop_while p s).
Proof.
  induction 1 as [|c s Hc Hs IH]; simpl; [constructor|].
  destruct (p c); [assumption | constructor; assumption].
Qed.

Lemma Forall_strip (P : codepoint -> Prop) (s : str) :
  Forall P s -> Forall P (strip s).
Proof.
  intros Hs. unfold strip.
  apply Forall_rev, Forall_drop_while, Forall_rev, Forall_drop_while, Hs.
Qed.

Lemma sub_whitespace_from_only_spaces (b : bool) (s : str) :
  Forall (fun c => isspace c = true -> c = 32%N) (sub_whitespace_from b s).
Proof.
  revert b. induction s as [|c s IH]; intros b; simpl; [constructor|].
  destruct (isspace c) eqn:Hc.
  - destruct b; [apply IH | constructor; [reflexivity | apply IH]].
  - constructor; [congruence | apply IH].
Qed.

(** X1. Every character of a cleaned text is a word character, white
    space or one of the punctuation marks the filter keeps, and the only
    white space left in it is the space. *)
Theorem clean_text_characters (text : str) :
  Forall (fun c => allowed c = true /\ (isspace c = true -> c = 32%N))
    (clean_text text).
Proof.
  apply Forall_and. split.
  - destruct text as [|c text]; [constructor|]. apply Forall_filter_bool.
  - destruct text as [|c text]; [constructor|]. unfold clean_text.
    apply Forall_filter_keeps, Forall_strip, sub_whitespace_from_only_spaces.
Qed.

Lemma single_spaced_from_weaken (s : str) :
  single_spaced_from true s = true -> single_spaced_from false s = true.
Proof.
  destruct s as [|c s]; simpl; [discriminate|].
  destruct (isspace c); [|trivial].
  rewrite andb_false_r. discriminate.
Qed.

Lemma sub_whitespace_from_fixed (b : bool) (s : str) :
  single_spaced_from b s = true -> sub_whitespace_from b s = s.
Proof.
  revert b. induction s as [|c s IH]; intros b Hs; simpl in *; [reflexivity|].
  destruct (isspace c).
  - apply andb_true_iff in Hs. destruct Hs as [Hs Hrest].
    apply andb_true_iff in Hs. destruct Hs as [Hc Hb].
    apply N.eqb_eq in Hc. destruct b; [discriminate|].
    rewrite (IH true Hrest), Hc. reflexivity.
  - rewrite (IH false Hs). reflexivity.
Qed.

Lemma single_spaced_from_last (b : bool) (s : str) (c : codepoint) :
  single_spaced_from b (s ++ [c]) = true -> isspace c = false.
Proof.
  revert b. induction s as [|x s IH]; intros b; simpl.
  - destruct (isspace c); [|reflexivity].
    rewrite andb_false_r. discriminate.
  - destruct (isspace x); [|apply IH].
    intros Hs. apply andb_true_iff in Hs. destruct Hs as [_ Hs]. exact (IH _ Hs).
Qed.

Lemma strip_fixed (s : str) : single_spaced s = true -> strip s = s.
Proof.
  intros Hs. unfold strip, single_spaced in *.
  assert (Hhead : drop_while isspace s = s).
  { destruct s as [|c s]; [reflexivity|]. simpl in *.
    destruct (isspace c); [|reflexivity].
    rewrite andb_false_r in Hs. discriminate. }
  rewrite Hhead.
  destruct (rev s) as [|c r] eqn:Hrev.
  - apply (f_equal (@rev codepoint)) in Hrev. rewrite rev_involutive in Hrev.
    exact (eq_sym Hrev).
  - assert (Hsr : s = rev r ++ [c]).
    { rewrite <- (rev_involutive s), Hrev. reflexivity. }
    rewrite Hsr in Hs. apply single_spaced_from_last in Hs.
    simpl. rewrite Hs. rewrite <- Hrev. apply rev_involutive.
Qed.

Lemma filter_all (p : codepoint -> bool) (s : str) :
  forallb p s = true -> List.filter p s = s.
Proof.
  induction s as [|c s IH]; simpl; [reflexivity|].
  destruct (p c); simpl; [intros Hs; rewrite (IH Hs); reflexivity | discriminate].
Qed.

(** X2. [clean_text] leaves a text as it is when the text is in the NFKC
    normal form, has no white space but single spaces between its words,
    and has only characters the filter keeps. *)
Theorem clean_text_fixed_point (text : str) :
  normalize_NFKC text = text ->
  single_spaced text = true ->
  forallb allowed text = true ->
  clean_text text = text.
Proof.
  intros Hn Hs Ha. destruct text as [|c text]; [reflexivity|].
  unfold clean_text. rewrite Hn.
  unfold sub_whitespace.
  rewrite (sub_whitespace_from_fixed false) by (apply single_spaced_from_weaken, Hs).
  rewrite (strip_fixed _ Hs). apply filter_all, Ha.
Qed.

End CleanShape.

Lemma clean_text_fixed_point_witness :
  clean_text (lit "Hello, #world @user!") = lit "Hello, #world @user!".
Proof.
  apply (clean_text_fixed_point (lit "Hello, #world @user!")); reflexivity.
Defined.

(** ** Validation *)

Section Validity.
Context `{UnicodeData}.
Variable self : TextProcessor.

Lemma rule_errors_nil_iff (text : str) :
  Spec.rule_errors self text = []
  <-> len text <= max_length self
      /\ 3 <= len (strip text)
      /\ _has_excessive_repetition text = false
      /\ _is_spam_like text = false.
Proof.
  unfold Spec.rule_errors.
  destruct (Z.ltb_spec (max_length self) (len text)),
    (Z.ltb_spec (len (strip text)) 3),
    (_has_excessive_repetition text), (_is_spam_like text); simpl;
    split; intros Hx; try discriminate; try (repeat split; (reflexivity || lia));
    destruct Hx as (? & ? & ? & ?); (lia || discriminate).
Qed.

(** X3. [validate_post] accepts a text exactly when the text is not blank,
    is no longer than the limit, has at least three characters once
    stripped, has no excessive repetition and is not spam-like. *)
Theorem validate_post_accepts (text : str) :
  fst (validate_post self text) = true
  <-> forallb isspace text = false
      /\ len text <= max_length self
      /\ 3 <= len (strip text)
      /\ _has_excessive_repetition text = false
      /\ _is_spam_like text = false.
Proof.
  rewrite validate_post_cases.
  destruct (forallb isspace text) eqn:Hall; simpl.
  - split; [discriminate | intros [Hf _]; discriminate].
  - rewrite bool_decide_eq_true, rule_errors_nil_iff. tauto.
Qed.

(** X13. When [clean_and_validate_post] reports a post as valid, the text
    it returns is the cleaned post, there are no errors, and the cleaned
    post has between three and [max_length] characters, no excessive
    repetition and nothing spam-like. *)
Theorem clean_and_validate_post_accepts (text cleaned : str)
    (errors : list string) :
  clean_and_validate_post self text = (cleaned, true, errors) ->
  cleaned = clean_text text
  /\ errors = []
  /\ 3 <= len cleaned <= max_length self
  /\ _has_excessive_repetition cleaned = false
  /\ _is_spam_like cleaned = false.
Proof.
  unfold clean_and_validate_post. intros Heq.
  pose proof (validate_post_cases self (clean_text text)) as Hcases.
  destruct (validate_post self (clean_text text)) as [valid errs].
  injection Heq as <- -> <-.
  destruct (forallb isspace (clean_text text)); [discriminate|].
  injection Hcases as Hvalid Herrs.
  symmetry in Hvalid. apply bool_decide_eq_true in Hvalid.
  destruct (proj1 (rule_errors_nil_iff (clean_text text)) Hvalid)
    as (Hlen & Hstrip & Hrep & Hspam).
  pose proof (length_strip (clean_text text)) as Hs. unfold len in *.
  repeat apply conj; try assumption; try reflexivity; try lia.
  rewrite Herrs. exact Hvalid.
Qed.

End Validity.

Lemma clean_and_validate_post_accepts_witness :
  lit "This is a valid post" = clean_text (lit "  This is   a valid post ")
  /\ @nil string = []
  /\ 3 <= len (lit "This is a valid post") <= max_length text_processor
  /\ _has_excessive_repetition (lit "This is a valid post") = false
  /\ _is_spam_like (lit "This is a valid post") = false.
Proof.
  apply (clean_and_validate_post_accepts text_processor
           (lit "  This is   a valid post ") (lit "This is a valid post") []).
  vm_compute. reflexivity.
Defined.

(** ** Repetition *)

Lemma search_four_repeated_cons (x : codepoint) (s : str) :
  search_four_repeated s = true -> search_four_repeated (x :: s) = true.
Proof.
  intros Hs. destruct s as [|b [|c [|d r]]]; try discriminate.
  change (search_four_repeated (x :: b :: c :: d :: r))
    with ((negb (x =? 10) && (x =? b) && (x =? c) && (x =? d))%N
          || search_four_repeated (b :: c :: d :: r)).
  rewrite Hs. apply orb_true_r.
Qed.

Lemma search_four_repeated_iff (s : str) :
  search_four_repeated s = true
  <-> exists pre c post, c <> 10%N /\ s = pre ++ [c; c; c; c] ++ post.
Proof.
  split.
  - induction s as [|a s IH]; [discriminate|].
    destruct s as [|b [|c [|d r]]]; try discriminate.
    change (search_four_repeated (a :: b :: c :: d :: r))
      with ((negb (a =? 10) && (a =? b) && (a =? c) && (a =? d))%N
            || search_four_repeated (b :: c :: d :: r)).
    intros Hs. apply orb_true_iff in Hs. destruct Hs as [Hhere|Hlater].
    + repeat (apply andb_true_iff in Hhere; destruct Hhere as [Hhere ?]).
      apply negb_true_iff, N.eqb_neq in Hhere.
      repeat match goal with Heq : (_ =? _)%N = true |- _ =>
        apply N.eqb_eq in Heq end. subst.
      exists [], d, r. split; [assumption | reflexivity].
    + destruct (IH Hlater) as (pre & x & post & Hx & Heq).
      exists (a :: pre), x, post. split; [assumption|]. rewrite Heq. reflexivity.
  - intros (pre & c & post & Hc & ->). induction pre as [|x pre IH].
    + simpl. rewrite !N.eqb_refl. apply N.eqb_neq in Hc. rewrite Hc. reflexivity.
    + simpl app. apply search_four_repeated_cons. exact IH.
Qed.

Section Repetition.
Context `{UnicodeData}.

Lemma three_equal_words_iff (words : list str) :
  three_equal_words words = true
  <-> exists before w after, words = before ++ [w; w; w] ++ after.
Proof.
  split.
  - induction words as [|a ws IH]; [discriminate|].
    destruct ws as [|b [|c r]]; try discriminate.
    change (three_equal_words (a :: b :: c :: r))
      with ((bool_decide (a = b) && bool_decide (b = c))
            || three_equal_words (b :: c :: r)).
    intros Hs. apply orb_true_iff in Hs. destruct Hs as [Hhere|Hlater].
    + apply andb_true_iff in Hhere. destruct Hhere as [Hab Hbc].
      apply bool_decide_eq_true in Hab, Hbc. subst.
      exists [], c, r. reflexivity.
    + destruct (IH Hlater) as (before & w & after & Heq).
      exists (a :: before), w, after. rewrite Heq. reflexivity.
  - intros (before & w & after & ->). induction before as [|x before IH].
    + simpl. rewrite !bool_decide_eq_true_2 by reflexivity. reflexivity.
    + simpl app. simpl app in IH.
      destruct (before ++ w :: w :: w :: after) as [|b [|c r]] eqn:Hl;
        try discriminate.
      change (three_equal_words (x :: b :: c :: r))
        with ((bool_decide (x = b) && bool_decide (b = c))
              || three_equal_words (b :: c :: r)).
      rewrite IH. apply orb_true_r.
Qed.

(** X4. [_has_excessive_repetition] holds exactly when the text has a
    character other than the newline four times in a row, or its
    white-space separated words have three equal words in a row. *)
Theorem has_excessive_repetition_iff (text : str) :
  _has_excessive_repetition text = true
  <-> (exists pre c post, c <> 10%N /\ text = pre ++ [c; c; c; c] ++ post)
      \/ (exists before w after, split text = before ++ [w; w; w] ++ after).
Proof.
  unfold _has_excessive_repetition.
  rewrite <- search_four_repeated_iff, <- three_equal_words_iff.
  destruct (search_four_repeated text); intuition congruence.
Qed.

End Repetition.

(** ** Words, hashtags, mentions and links *)

Lemma split_from_words (cur s : str) :
  Forall (fun c => isspace c = false) cur ->
  Forall is_word_of_text (split_from cur s).
Proof.
  revert cur. induction s as [|c s IH]; intros cur Hcur; simpl.
  - destruct cur; [constructor|]. constructor; [|constructor].
    split; [discriminate | assumption].
  - destruct (isspace c) eqn:Hc.
    + destruct cur as [|x cur]; [apply IH; constructor|].
      constructor; [split; [discriminate | assumption] | apply IH; constructor].
    + apply IH. apply Forall_app. split; [assumption|].
      constructor; [assumption | constructor].
Qed.

Lemma split_from_length (cur s : str) :
  (length (split_from cur s)
   <= length s + match cur with [] => 0 | _ => 1 end)%nat.
Proof.
  revert cur. induction s as [|c s IH]; intros cur; simpl.
  - destruct cur; simpl; lia.
  - destruct (isspace c).
    + destruct cur; simpl; specialize (IH []); simpl in IH; lia.
    + specialize (IH (cur ++ [c])).
      destruct (cur ++ [c]) eqn:Hc; [destruct cur; discriminate|].
      destruct cur; simpl in *; lia.
Qed.

Section Words.
Context `{UnicodeData}.

(** X9. The word count of [get_text_stats] is at most the cleaned length,
    and the words it counts are nonempty and free of white space. *)
Theorem word_count_bounds (text : str) :
  0 <= word_count (get_text_stats text) <= cleaned_length (get_text_stats text)
  /\ Forall is_word_of_text (split (clean_text text)).
Proof.
  simpl. unfold len, split.
  pose proof (split_from_length [] (clean_text text)) as Hl. simpl in Hl.
  split; [lia|]. apply split_from_words. constructor.
Qed.

End Words.

(** The matches of [findall] occur in the text. *)

Lemma take_while_drop (p : codepoint -> bool) (s : str) :
  take_while p s ++ drop (length (take_while p s)) s = s.
Proof.
  induction s as [|c s IH]; simpl; [reflexivity|].
  destruct (p c); simpl; [rewrite IH|]; reflexivity.
Qed.

Lemma take_while_all (p : codepoint -> bool) (s : str) :
  forallb p (take_while p s) = true.
Proof.
  induction s as [|c s IH]; simpl; [reflexivity|].
  destruct (p c) eqn:Hc; simpl; [rewrite Hc; exact IH | reflexivity].
Qed.

Lemma take_while_maximal (p : codepoint -> bool) (s : str) :
  match drop (length (take_while p s)) s with
  | c :: _ => p c = false
  | [] => True
  end.
Proof.
  induction s as [|c s IH]; simpl; [exact I|].
  destruct (p c) eqn:Hc; simpl; [exact IH | exact Hc].
Qed.

Lemma findall_fuel_elem (m : str -> option (str * str)) (fuel : nat)
    (s x : str) :
  (forall s found after, m s = Some (found, after) -> exists k, s = k ++ after) ->
  x ∈ findall_fuel m fuel s ->
  exists pre s' after, s = pre ++ s' /\ m s' = Some (x, after).
Proof.
  intros Hm. revert s. induction fuel as [|fuel IH]; intros s Hx; simpl in Hx.
  - apply elem_of_nil in Hx. contradiction.
  - destruct s as [|c rest]; [apply elem_of_nil in Hx; contradiction|].
    destruct (m (c :: rest)) as [[found after]|] eqn:Hmatch.
    + apply elem_of_cons in Hx. destruct Hx as [->|Hx].
      * exists [], (c :: rest), after. split; [reflexivity | exact Hmatch].
      * destruct (IH _ Hx) as (pre & s' & after' & Heq & Hs').
        destruct (Hm _ _ _ Hmatch) as [k Hk].
        exists (k ++ pre), s', after'. split; [|exact Hs'].
        rewrite Hk, Heq, app_assoc. reflexivity.
    + destruct (IH _ Hx) as (pre & s' & after' & Heq & Hs').
      exists (c :: pre), s', after'. split; [|exact Hs']. rewrite Heq. reflexivity.
Qed.

Section Tags.
Context `{UnicodeData}.

Lemma match_marker_word_spec (marker : codepoint) (s found after : str) :
  match_marker_word marker s = Some (found, after) ->
  exists w, found = marker :: w /\ w <> [] /\ forallb is_word w = true
            /\ s = marker :: w ++ after
            /\ match after with c :: _ => is_word c = false | [] => True end.
Proof.
  unfold match_marker_word. destruct s as [|c rest]; [discriminate|].
  destruct (N.eqb_spec c marker) as [->|]; [|discriminate].
  pose proof (take_while_drop is_word rest) as Hd.
  pose proof (take_while_all is_word rest) as Ha.
  pose proof (take_while_maximal is_word rest) as Hmax.
  destruct (take_while is_word rest) as [|x w] eqn:Hw; [discriminate|].
  intros Heq. injection Heq as <- <-.
  exists (x :: w). repeat apply conj; try assumption; try reflexivity; try discriminate.
  f_equal. symmetry. exact Hd.
Qed.

Lemma match_marker_group_spec (marker : codepoint) (s w after : str) :
  match_marker_group marker s = Some (w, after) ->
  w <> [] /\ forallb is_word w = true /\ s = marker :: w ++ after
  /\ match after with c :: _ => is_word c = false | [] => True end.
Proof.
  unfold match_marker_group.
  destruct (match_marker_word marker s) as [[found after']|] eqn:Hm; [|discriminate].
  destruct (match_marker_word_spec _ _ _ _ Hm) as (w' & -> & Hne & Hall & Hs & Hmax).
  intros Heq. injection Heq as <- <-. auto.
Qed.

Lemma tags_shape (marker : codepoint) (text tag : str) :
  tag ∈ list_of_set (findall (match_marker_group marker) text) ->
  tag <> [] /\ forallb is_word tag = true
  /\ exists pre post,
       text = pre ++ marker :: tag ++ post
       /\ match post with c :: _ => is_word c = false | [] => True end.
Proof.
  rewrite elem_of_list_of_set. unfold findall. intros Hin.
  apply findall_fuel_elem in Hin.
  - destruct Hin as (pre & s' & after & Heq & Hm).
    destruct (match_marker_group_spec _ _ _ _ Hm) as (Hne & Hall & Hs & Hmax).
    repeat apply conj; try assumption.
    exists pre, after. rewrite Heq, Hs. split; [reflexivity | exact Hmax].
  - intros s found after Hm.
    destruct (match_marker_group_spec _ _ _ _ Hm) as (_ & _ & Hs & _).
    exists (marker :: found). rewrite Hs. reflexivity.
Qed.

(** X7. Every hashtag [extract_hashtags] returns, and every mention
    [extract_mentions] returns, is a nonempty run of word characters that
    stands in the text right after its marker, # or @, and is not
    followed by a word character. *)
Theorem extract_tags_shape (text tag : str) (marker : codepoint) :
  marker = 35%N /\ tag ∈ extract_hashtags text
  \/ marker = 64%N /\ tag ∈ extract_mentions text ->
  tag <> [] /\ forallb is_word tag = true
  /\ exists pre post,
       text = pre ++ marker :: tag ++ post
       /\ match post with c :: _ => is_word c = false | [] => True end.
Proof. intros [[-> Hin]|[-> Hin]]; exact (tags_shape _ _ _ Hin). Qed.

(** [list(set(l))] has at most the elements of [l]. *)

Lemma length_list_of_set (l : list str) :
  (length (list_of_set l) <= length l)%nat.
Proof.
  apply submseteq_length, NoDup_submseteq; [apply NoDup_list_of_set|].
  intros x. apply elem_of_list_of_set.
Qed.

Lemma findall_fuel_group_word (marker : codepoint) (fuel : nat) (s : str) :
  length (findall_fuel (match_marker_group marker) fuel s)
  = length (findall_fuel (match_marker_word marker) fuel s).
Proof.
  revert s. induction fuel as [|fuel IH]; intros s; simpl; [reflexivity|].
  destruct s as [|c rest]; [reflexivity|].
  unfold match_marker_group.
  destruct (match_marker_word marker (c :: rest)) as [[found after]|] eqn:Hm.
  - destruct (match_marker_word_spec _ _ _ _ Hm) as (w & -> & _).
    simpl. rewrite <- IH. reflexivity.
  - apply IH.
Qed.

(** X6. A text for which [get_text_stats] counts more than ten different
    hashtags is spam-like. *)
Theorem many_hashtags_are_spam (text : str) :
  10 < hashtag_count (get_text_stats text) -> _is_spam_like text = true.
Proof.
  simpl. unfold extract_hashtags, len. intros Hmany.
  pose proof (length_list_of_set (findall (match_marker_group 35%N) text)) as Hl.
  unfold findall in Hl at 2. rewrite findall_fuel_group_word in Hl.
  unfold _is_spam_like.
  destruct (int_gt_float _ _); [reflexivity|].
  destruct (int_gt_float _ _); [reflexivity|].
  unfold findall, len.
  destruct (Z.ltb_spec 10 (Z.of_nat (length (findall_fuel (match_marker_word 35%N) (length text) text)))); [reflexivity | lia].
Qed.

End Tags.

Lemma extract_tags_shape_witness :
  lit "vote" <> [] /\ forallb is_word (lit "vote") = true
  /\ exists pre post,
       lit "go #vote now" = pre ++ 35%N :: lit "vote" ++ post
       /\ match post with c :: _ => is_word c = false | [] => True end.
Proof.
  apply (extract_tags_shape (lit "go #vote now") (lit "vote") 35%N).
  left. split; [reflexivity|].
  apply elem_of_list_of_set. vm_compute. constructor.
Defined.

Lemma many_hashtags_are_spam_witness : _is_spam_like hashtag_post = true.
Proof. apply (many_hashtags_are_spam hashtag_post). vm_compute. reflexivity. Defined.

Lemma match_literal_spec (p s rest : str) :
  match_literal p s = Some rest -> s = p ++ rest.
Proof.
  revert s. induction p as [|a p IH]; intros s; simpl.
  - intros Heq. injection Heq as ->. reflexivity.
  - destruct s as [|c s]; [discriminate|].
    destruct (N.eqb_spec a c) as [->|]; [|discriminate].
    intros Hm. rewrite (IH _ Hm). reflexivity.
Qed.

Lemma match_url_tail_spec (s t after : str) :
  match_url_tail s = Some (t, after) ->
  exists run, run <> [] /\ forallb url_char run = true
              /\ t = lit "://" ++ run /\ s = t ++ after.
Proof.
  unfold match_url_tail.
  destruct (match_literal (lit "://") s) as [rest|] eqn:Hl; [|discriminate].
  apply match_literal_spec in Hl.
  pose proof (take_while_drop url_char rest) as Hd.
  pose proof (take_while_all url_char rest) as Ha.
  destruct (take_while url_char rest) as [|x run] eqn:Hr; [discriminate|].
  intros Heq. injection Heq as <- <-.
  exists (x :: run). repeat apply conj; try assumption; try reflexivity; try discriminate.
  rewrite Hl. rewrite <- Hd at 1. reflexivity.
Qed.

Lemma match_url_spec (s found after : str) :
  match_url s = Some (found, after) ->
  s = found ++ after
  /\ exists scheme run,
       found = scheme ++ run
       /\ (scheme = lit "http://" \/ scheme = lit "https://")
       /\ run <> [] /\ forallb url_char run = true.
Proof.
  unfold match_url.
  destruct (match_literal (lit "http") s) as [rest|] eqn:Hl; [|discriminate].
  apply match_literal_spec in Hl.
  assert (Hplain : forall found after,
    match match_url_tail rest with
    | Some (t, after) => Some (lit "http" ++ t, after)
    | None => None
    end = Some (found, after) ->
    s = found ++ after
    /\ exists scheme run,
         found = scheme ++ run
         /\ (scheme = lit "http://" \/ scheme = lit "https://")
         /\ run <> [] /\ forallb url_char run = true).
  { intros f a Heq.
    destruct (match_url_tail rest) as [[t a']|] eqn:Ht; [|discriminate].
    injection Heq as <- <-.
    destruct (match_url_tail_spec _ _ _ Ht) as (run & Hne & Hall & -> & Hrest).
    split; [rewrite Hl, Hrest, app_assoc; reflexivity|].
    exists (lit "http://"), run. repeat apply conj; auto. }
  destruct rest as [|c rest']; [apply Hplain|].
  destruct (N.eqb_spec c 115) as [->|Hc].
  - destruct (match_url_tail rest') as [[t a']|] eqn:Ht; [|apply Hplain].
    intros Heq. injection Heq as <- <-.
    destruct (match_url_tail_spec _ _ _ Ht) as (run & Hne & Hall & -> & Hrest).
    split; [rewrite Hl, Hrest; reflexivity|].
    exists (lit "https://"), run. repeat apply conj; auto.
  - destruct c as [|p]; [apply Hplain|].
    repeat (destruct p as [p|p|]; try apply Hplain); congruence.
Qed.

Section Urls.
Context `{UnicodeData}.

(** X8. Every link [extract_urls] returns occurs in the text, and is
    http:// or https:// followed by at least one character, all of them
    characters of the pattern. *)
Theorem extract_urls_shape (text url : str) :
  url ∈ extract_urls text ->
  exists pre post scheme run,
    text = pre ++ url ++ post
    /\ url = scheme ++ run
    /\ (scheme = lit "http://" \/ scheme = lit "https://")
    /\ run <> [] /\ forallb url_char run = true.
Proof.
  unfold extract_urls. rewrite elem_of_list_of_set. unfold findall. intros Hin.
  apply findall_fuel_elem in Hin.
  - destruct Hin as (pre & s' & after & Heq & Hm).
    destruct (match_url_spec _ _ _ Hm) as (Hs & scheme & run & Hu & Hscheme & Hne & Hall).
    exists pre, after, scheme, run. rewrite Heq, Hs. auto.
  - intros s found after Hm. destruct (match_url_spec _ _ _ Hm) as (Hs & _).
    exists found. exact Hs.
Qed.

End Urls.

Lemma extract_urls_shape_witness :
  exists pre post scheme run,
    lit "see https://example.org/a now"
      = pre ++ lit "https://example.org/a" ++ post
    /\ lit "https://example.org/a" = scheme ++ run
    /\ (scheme = lit "http://" \/ scheme = lit "https://")
    /\ run <> [] /\ forallb url_char run = true.
Proof.
  apply (extract_urls_shape (lit "see https://example.org/a now")
           (lit "https://example.org/a")).
  apply elem_of_list_of_set. vm_compute. constructor.
Defined.

(** ** Spam thresholds *)

Section SpamThresholds.

Context `{UnicodeData}.

(** X5. For a text of fewer than 2^50 characters: it is spam-like when
    its capitals exceed 70% of the length, its exclamation and question
    marks exceed 10% of the length, or it has more than ten hashtags; and
    a spam-like text has capitals of at least 70% of the length, or
    marks above 10% of it, or more than ten hashtags. *)
Theorem is_spam_like_thresholds (text : str) :
  len text < 2 ^ 50 ->
  let n := len text in
  let capitals := len (List.filter is_upper_AZ text) in
  let marks := len (List.filter is_bang_or_question text) in
  let tags := len (findall (match_marker_word 35%N) text) in
  (7 * n < 10 * capitals \/ n < 10 * marks \/ 10 < tags ->
   _is_spam_like text = true)
  /\ (_is_spam_like text = true ->
      7 * n <= 10 * capitals \/ n < 10 * marks \/ 10 < tags).
Proof.
  intros Hlen. cbv zeta. unfold _is_spam_like, float_of_len.
  destruct text as [|c t].
  - simpl. unfold findall, len. simpl.
    split; [intros [?|[?|?]]; lia | discriminate].
  - set (text := c :: t) in *.
    assert (Hn : 0 < len text < 2 ^ 50).
    { unfold text in *. rewrite len_cons in *. pose proof (len_nonneg t). lia. }
    rewrite exceeds_tenth by exact Hn.
    destruct (exceeds_seven_tenths (len text)
                (len (List.filter is_upper_AZ text)) Hn) as [Hup Hdown].
    destruct (int_gt_float _ _).
    + split; [reflexivity | intros _; left; apply Hdown; reflexivity].
    + destruct (Z.ltb_spec (len text)
                  (10 * len (List.filter is_bang_or_question text))).
      * split; [reflexivity | intros _; right; left; assumption].
      * destruct (Z.ltb_spec 10 (len (findall (match_marker_word 35%N) text))).
        -- split; [reflexivity | intros _; right; right; assumption].
        -- split; [|discriminate].
           intros [Hc|[Hm|Ht]]; [apply Hup in Hc; discriminate | lia | lia].
Qed.

End SpamThresholds.

Lemma is_spam_like_thresholds_witness :
  (7 * 90 < 10 * 63 \/ 90 < 10 * 0 \/ 10 < 0 ->
   _is_spam_like Samples.capitals_post = true)
  /\ (_is_spam_like Samples.capitals_post = true ->
      7 * 90 <= 10 * 63 \/ 90 < 10 * 0 \/ 10 < 0).
Proof.
  apply (is_spam_like_thresholds Samples.capitals_post). reflexivity.
Defined.

(** ** Truncation *)

Lemma rfind_from_lookup (c : codepoint) (s : str) (i found : Z) :
  rfind_from c s i found = found
  \/ exists j : nat,
       rfind_from c s i found = i + Z.of_nat j /\ s !! j = Some c.
Proof.
  revert i found. induction s as [|x s IH]; intros i found; simpl.
  - left. reflexivity.
  - destruct (IH (i + 1) (if (x =? c)%N then i else found)) as [Heq|(j & Hj & Hl)].
    + rewrite Heq. destruct (N.eqb_spec x c) as [->|]; [|left; reflexivity].
      right. exists 0%nat. split; [lia | reflexivity].
    + right. exists (S j). split; [lia | exact Hl].
Qed.

Lemma rfind_lookup (c : codepoint) (s : str) :
  0 <= rfind c s -> s !! Z.to_nat (rfind c s) = Some c.
Proof.
  unfold rfind. intros Hr.
  destruct (rfind_from_lookup c s 0 (-1)) as [Heq|(j & Hj & Hl)]; [lia|].
  rewrite Hj. replace (Z.to_nat (0 + Z.of_nat j)) with j by lia. exact Hl.
Qed.

Section TruncationMore.

Variable self : TextProcessor.

Lemma truncate_text_fits (text : str) (max_length_arg : option Z) :
  len text <= limit_of self max_length_arg ->
  truncate_text self text max_length_arg = Return text.
Proof.
  intros Hfit. unfold truncate_text. fold (limit_of self max_length_arg).
  destruct (Z.leb_spec (len text) (limit_of self max_length_arg)); [reflexivity | lia].
Qed.

Lemma truncate_text_long (text : str) (max_length_arg : option Z) :
  3 <= limit_of self max_length_arg < 2 ^ 50 ->
  limit_of self max_length_arg < len text ->
  truncate_text self text max_length_arg =
    Return
      (let n := limit_of self max_length_arg in
       let cut := take (Z.to_nat (n - 3)) text in
       let i := rfind 32%N cut in
       if 4 * n <? 5 * i then take (Z.to_nat i) cut ++ lit "..."
       else cut ++ lit "...").
Proof.
  intros Hn Hlong. unfold truncate_text. fold (limit_of self max_length_arg).
  set (n := limit_of self max_length_arg) in *.
  destruct (Z.leb_spec (len text) n) as [Hfit|_]; [lia|].
  rewrite (slice_to_take text (n - 3)) by lia.
  set (cut := take (Z.to_nat (n - 3)) text).
  rewrite rfind_with_dots.
  assert (H50 : 2 ^ 50 < 2 ^ 1023) by (apply Z.pow_lt_mono_r; lia).
  rewrite float_of_int_returns by lia.
  unfold mbind, Exc_bind. rewrite exceeds_four_fifths by lia.
  cbv zeta.
  destruct (Z.ltb_spec (4 * n) (5 * rfind 32%N cut)) as [Hgt|Hle]; [|reflexivity].
  pose proof (rfind_range 32%N cut) as Hr.
  rewrite slice_to_take by (rewrite len_app; pose proof (len_nonneg (lit "...")); lia).
  rewrite take_app_le by (unfold len in Hr; lia).
  reflexivity.
Qed.

(** X10. For a limit from 3 up to 2^50 and a longer text,
    [truncate_text] returns a prefix of the text followed by three full
    stops; the prefix has [max_length - 3] characters, or it is shorter,
    ends right before a space of the text and is longer than 80% of the
    limit. *)
Theorem truncate_text_shape (text : str) (max_length_arg : option Z) :
  3 <= limit_of self max_length_arg < 2 ^ 50 ->
  limit_of self max_length_arg < len text ->
  exists k : nat,
    truncate_text self text max_length_arg = Return (take k text ++ lit "...")
    /\ (Z.of_nat k = limit_of self max_length_arg - 3
        \/ (4 * limit_of self max_length_arg < 5 * Z.of_nat k
            /\ Z.of_nat k < limit_of self max_length_arg - 3
            /\ text !! k = Some 32%N)).
Proof.
  intros Hn Hlong. rewrite (truncate_text_long text max_length_arg Hn Hlong).
  cbv zeta. set (n := limit_of self max_length_arg) in *.
  set (cut := take (Z.to_nat (n - 3)) text).
  assert (Hcut : len cut = n - 3).
  { unfold cut, len in *. rewrite length_take. lia. }
  pose proof (rfind_range 32%N cut) as Hr.
  destruct (Z.ltb_spec (4 * n) (5 * rfind 32%N cut)) as [Hgt|Hle].
  - exists (Z.to_nat (rfind 32%N cut)). split.
    + assert (Ht : forall k, take k cut = take (k `min` Z.to_nat (n - 3)) text)
        by (intros k; apply take_take).
      rewrite Ht. do 3 f_equal. lia.
    + right. repeat apply conj; try lia.
      pose proof (rfind_lookup 32%N cut ltac:(lia)) as Hl.
      rewrite <- (lookup_take_lt text (Z.to_nat (n - 3))) by lia. exact Hl.
  - exists (Z.to_nat (n - 3)). split; [reflexivity | left; lia].
Qed.

(** X11. For a limit from 3 up to 2^50, the result of [truncate_text] is
    no longer than the limit, and truncating it again returns it
    unchanged. *)
Theorem truncate_text_bounded (text : str) (max_length_arg : option Z) :
  3 <= limit_of self max_length_arg < 2 ^ 50 ->
  exists s,
    truncate_text self text max_length_arg = Return s
    /\ len s <= limit_of self max_length_arg
    /\ truncate_text self s max_length_arg = Return s.
Proof.
  intros Hn. set (n := limit_of self max_length_arg) in *.
  destruct (Z.le_gt_cases (len text) n) as [Hfit|Hlong].
  - exists text. rewrite !truncate_text_fits by exact Hfit. auto.
  - rewrite (truncate_text_long text max_length_arg Hn ltac:(fold n; lia)).
    cbv zeta. fold n. set (cut := take (Z.to_nat (n - 3)) text).
    assert (Hcut : len cut = n - 3).
    { unfold cut, len in *. rewrite length_take. lia. }
    pose proof (rfind_range 32%N cut) as Hr.
    assert (Hdots : len (lit "...") = 3) by reflexivity.
    eexists. split; [reflexivity|].
    assert (Hlen : len (if 4 * n <? 5 * rfind 32%N cut
                        then take (Z.to_nat (rfind 32%N cut)) cut ++ lit "..."
                        else cut ++ lit "...") <= n).
    { destruct (4 * n <? 5 * rfind 32%N cut); rewrite len_app, Hdots; [|lia].
      unfold len in *. rewrite length_take. lia. }
    split; [exact Hlen|]. apply truncate_text_fits. exact Hlen.
Qed.

(** X12. With a limit below 3 and a longer text, [truncate_text]
    returns a text that ends with three full stops and is longer than the
    limit. *)
Theorem truncate_text_short_limit (text : str) (n : Z) :
  - 2 ^ 1023 < n < 3 -> n < len text ->
  exists body,
    truncate_text self text (Some n) = Return (body ++ lit "...")
    /\ n < len (body ++ lit "...").
Proof.
  intros Hn Hlong. unfold truncate_text.
  destruct (Z.leb_spec (len text) n) as [Hfit|_]; [lia|].
  assert (H0 : 1023 < 2 ^ 1023) by (apply Z.pow_gt_lin_r; lia).
  rewrite float_of_int_returns by lia.
  unfold mbind, Exc_bind. cbv zeta.
  destruct (int_gt_float _ _); eexists; (split; [reflexivity|]);
    rewrite len_app; change (len (lit "...")) with 3;
    match goal with |- _ < len ?b + 3 => pose proof (len_nonneg b) end; lia.
Qed.

End TruncationMore.

Lemma truncate_text_shape_witness :
  exists k : nat,
    truncate_text text_processor (lit "one two three four five six") (Some 25)
      = Return (take k (lit "one two three four five six") ++ lit "...")
    /\ (Z.of_nat k = 25 - 3
        \/ (4 * 25 < 5 * Z.of_nat k /\ Z.of_nat k < 25 - 3
            /\ lit "one two three four five six" !! k = Some 32%N)).
Proof.
  apply (truncate_text_shape text_processor (lit "one two three four five six")
           (Some 25)); simpl; [lia | reflexivity].
Defined.

Lemma truncate_text_bounded_witness :
  exists s,
    truncate_text text_processor (lit "one two three four five six") (Some 25)
      = Return s
    /\ len s <= 25
    /\ truncate_text text_processor s (Some 25) = Return s.
Proof.
  apply (truncate_text_bounded text_processor
           (lit "one two three four five six") (Some 25)). simpl. lia.
Defined.

Lemma truncate_text_short_limit_witness :
  exists body,
    truncate_text text_processor (lit "abcdef") (Some 2)
      = Return (body ++ lit "...")
    /\ 2 < len (body ++ lit "...").
Proof.
  apply (truncate_text_short_limit text_processor (lit "abcdef") 2);
    [split; reflexivity | reflexivity].
Defined.

End TextShape.

(** * Further properties of the sentiment scorer *)

Module SentimentShape.
Import Sentiment Binary64 SentimentFacts FloatFacts Notions.

Lemma classify_fneg (score : float) :
  Spec.classify (fneg score) = opposite (Spec.classify score).
Proof.
  unfold Spec.classify, fgt, flt, fneg, c0_1.
  rewrite SFltb_opp_r, SFltb_opp_opp.
  destruct (SFltb (S754_finite false 7205759403792794 (-56)) score) eqn:Hp.
  - unfold SFopp. cbn [negb]. rewrite (SFltb_above_not_below _ _ _ Hp). reflexivity.
  - destruct (SFltb score (SFopp (S754_finite false 7205759403792794 (-56))));
      reflexivity.
Qed.

Lemma confidence_fneg (c : classification) (score : float) :
  Spec.confidence (opposite c) (fneg score) = Spec.confidence c score.
Proof.
  destruct c; unfold opposite, Spec.confidence.
  - unfold fsub, fneg, c0_1. rewrite SFsub_opp_opp. reflexivity.
  - unfold fsub, fneg, c0_1. rewrite SFsub_opp_swap. reflexivity.
  - rewrite fabs_fneg. reflexivity.
Qed.

(** X14. Negating a score exchanges the positive and the negative class,
    keeps the neutral one, and leaves the confidence as it is. *)
Theorem classify_sentiment_symmetric (score : float) (c : classification)
    (conf : float) :
  _classify_sentiment score = Return (c, conf) ->
  _classify_sentiment (fneg score) = Return (opposite c, conf).
Proof.
  rewrite !classify_sentiment_eq. intros H. injection H as <- <-.
  rewrite classify_fneg, confidence_fneg. reflexivity.
Qed.

Lemma classify_sentiment_symmetric_witness :
  exists conf,
    _classify_sentiment c0_5 = Return (positive, conf)
    /\ _classify_sentiment (fneg c0_5) = Return (negative, conf).
Proof.
  eexists. split; [vm_compute; reflexivity|].
  apply (classify_sentiment_symmetric c0_5 positive). vm_compute. reflexivity.
Defined.

(** A neutral score is at most one tenth in absolute value. *)
Lemma neutral_small (score : float) :
  not_nan score -> Spec.classify score = neutral ->
  fgt (fabs score) c0_7 = false /\ flt (fabs score) c0_2 = true.
Proof.
  intros Hn. unfold Spec.classify.
  destruct (fgt score c0_1) eqn:Hp; [discriminate|].
  destruct (flt score (fneg c0_1)) eqn:Hm; [discriminate|]. intros _.
  destruct score as [s|s| |s m e].
  - split; reflexivity.
  - destruct s; discriminate.
  - contradiction.
  - assert (He : e <= -56).
    { destruct s.
      - revert Hm. unfold flt, SFltb, fneg, c0_1, SFopp. cbn [negb].
        rewrite SFcompare_neg_neg.
        destruct (Z.compare_spec e (-56)); intros; try lia; discriminate.
      - revert Hp. unfold fgt, SFltb, c0_1. rewrite SFcompare_pos_pos.
        destruct (Z.compare_spec (-56) e); intros; try lia; discriminate. }
    unfold fabs, SFabs, fgt, flt, SFltb, c0_7, c0_2.
    rewrite !SFcompare_pos_pos.
    rewrite (proj2 (Z.compare_gt_iff (-53) e)) by lia.
    rewrite (proj2 (Z.compare_lt_iff e (-55))) by lia.
    split; reflexivity.
Qed.

Lemma neutral_explanation_notes (score subjectivity : float) :
  not_nan score -> Spec.classify score = neutral ->
  exists note,
    In note subjectivity_notes
    /\ _generate_sentiment_explanation neutral score subjectivity
       = (base_explanation neutral ++ note
          ++ " The sentiment is subtle and understated.")%string.
Proof.
  intros Hn Hc. destruct (neutral_small score Hn Hc) as [H7 H2].
  unfold _generate_sentiment_explanation. rewrite H7, H2.
  unfold subjectivity_notes.
  destruct (fgt subjectivity c0_7); [|destruct (flt subjectivity c0_3)];
    eexists; (split; [|reflexivity]); simpl; auto.
Qed.

Section Analyzer.

Variable TextBlob : str -> Exc textblob_details.
Variable polarity_scores : str -> Exc vader_scores.

(** X15. When both signals succeed and the record is neutral, its
    explanation is the neutral sentence, then at most one note on
    subjectivity, then the note that the sentiment is subtle and
    understated. *)
Theorem neutral_is_understated (text : str) (r : SentimentRecord)
    (blob : textblob_details) (vs : vader_scores) :
  TextBlob text = Return blob -> polarity_scores text = Return vs ->
  analyze_sentiment TextBlob polarity_scores text = Return r ->
  sentiment r = neutral ->
  exists note,
    In note subjectivity_notes
    /\ explanation r
       = ("The post has a balanced, neutral tone." ++ note
          ++ " The sentiment is subtle and understated.")%string.
Proof.
  intros Hb Hs Hr Hc. rewrite (analyze_success _ _ _ _ _ Hb Hs) in Hr.
  cbv zeta in Hr. injection Hr as <-. cbn [sentiment explanation] in *.
  rewrite Hc.
  apply neutral_explanation_notes; [apply combine_not_nan | exact Hc].
Qed.

Lemma analyze_sentiment_returns (text : str) :
  exists r, analyze_sentiment TextBlob polarity_scores text = Return r.
Proof.
  unfold analyze_sentiment, try_except.
  destruct (analyze_sentiment_body TextBlob polarity_scores text);
    eexists; reflexivity.
Qed.

(** X16. [analyze_sentiment_batch] never raises, whatever the lexicon
    models do: it returns one record for each text, in the order of the
    texts, each the record [analyze_sentiment] returns for that text. *)
Theorem analyze_sentiment_batch_returns (texts : list str) :
  exists rs,
    analyze_sentiment_batch TextBlob polarity_scores texts = Return rs
    /\ Forall2 (fun text r =>
                  analyze_sentiment TextBlob polarity_scores text = Return r)
         texts rs.
Proof.
  induction texts as [|text rest (rs & Hrs & Hall)].
  - exists []. split; [reflexivity | constructor].
  - destruct (analyze_sentiment_returns text) as [r Hr].
    exists (r :: rs). split.
    + simpl. rewrite Hr, Hrs. reflexivity.
    + constructor; assumption.
Qed.

End Analyzer.

Lemma neutral_is_understated_witness :
  exists note,
    In note subjectivity_notes
    /\ explanation
         {| sentiment := neutral;
            confidence := c1_0;
            score := c0_0;
            explanation :=
              "The post has a balanced, neutral tone. The sentiment is subtle and understated.";
            details :=
              {| textblob := {| polarity := c0_0; subjectivity := c0_5 |};
                 vader := {| neg := c0_0; neu := c1_0; pos := c0_0;
                             compound := c0_0 |};
                 combined := c0_0 |} |}
       = ("The post has a balanced, neutral tone." ++ note
          ++ " The sentiment is subtle and understated.")%string.
Proof.
  apply (neutral_is_understated calm_textblob calm_vader (lit "calm") _
           {| polarity := c0_0; subjectivity := c0_5 |}
           {| neg := c0_0; neu := c1_0; pos := c0_0; compound := c0_0 |});
    reflexivity.
Defined.

End SentimentShape.
